(** * visualize_evolution.py: rendering NEAT network snapshots into a GIF

    A shallow embedding of the two pipelines of [visualize_evolution.py],
    [visualize_network_evolution] and [create_comparison_gif], together with
    the Python and NumPy primitives they rest on, and the properties the
    specification states about them.

    Layout: Part I holds the definitions (Python values and exceptions,
    string helpers, slicing, IEEE-754 binary64 rounding, [np.linspace], the
    world the program acts on, the two pipelines); Part II holds the lemmas
    and the theorems. *)

From Stdlib Require Import ZArith QArith Qpower Qround Qabs List String Ascii Bool.
From Stdlib Require Import DecimalString Lia Lra Lqa.
From Stdlib Require Import Floats Uint63 Sorted Permutation.
Import ListNotations.

Set Implicit Arguments.

(* ================================================================= *)
(** * Part I: definitions *)

(* ----------------------------------------------------------------- *)
(** ** Python exceptions and results *)

(** The exceptions the program can meet.  [OtherError] stands for whatever
    subclass of [Exception] a collaborator raises, with its message.  What
    is not an [Exception] ([KeyboardInterrupt], [SystemExit]) is outside the
    model. *)
Inductive exn : Type :=
| ValueError
| ZeroDivisionError
| IndexError
| OtherError (msg : string).

(** A computation either yields a value or raises. *)
Inductive outcome (A : Type) : Type :=
| Ok (a : A)
| Raise (e : exn).

Arguments Ok {A} a.
Arguments Raise {A} e.

Definition bind {A B : Type} (m : outcome A) (k : A -> outcome B) : outcome B :=
  match m with
  | Ok a => k a
  | Raise e => Raise e
  end.

Notation "x <- m ;; k" := (bind m (fun x => k))
  (at level 61, m at next level, right associativity).

Fixpoint mapM {A B : Type} (f : A -> outcome B) (xs : list A) : outcome (list B) :=
  match xs with
  | [] => Ok []
  | x :: xs' => y <- f x ;; ys <- mapM f xs' ;; Ok (y :: ys)
  end.

(* ----------------------------------------------------------------- *)
(** ** Strings: [os.path.join], [os.path.basename], [str.replace] *)

Open Scope string_scope.

Definition slash : ascii := "/"%char.
Definition dot : ascii := "."%char.

Fixpoint ends_with_slash (s : string) : bool :=
  match s with
  | EmptyString => false
  | String c EmptyString => Ascii.eqb c slash
  | String _ r => ends_with_slash r
  end.

(** [os.path.join(a, b)] on POSIX. *)
Definition os_path_join (a b : string) : string :=
  match b with
  | String c _ =>
      if Ascii.eqb c slash then b
      else if (String.eqb a "" || ends_with_slash a)%bool then a ++ b
      else a ++ "/" ++ b
  | EmptyString =>
      if (String.eqb a "" || ends_with_slash a)%bool then a else a ++ "/"
  end.

(** [p[p.rfind('/') + 1:]]: [cur] is the text after the last slash seen. *)
Fixpoint after_last_slash (p cur : string) : string :=
  match p with
  | EmptyString => cur
  | String c r =>
      if Ascii.eqb c slash then after_last_slash r r
      else after_last_slash r cur
  end.

Definition basename (p : string) : string := after_last_slash p p.

(** [s.replace(old, new)] for a non-empty [old]: occurrences are found left
    to right and do not overlap.  [skip] counts the characters of a matched
    occurrence that are still to be passed over. *)
Fixpoint replace_from (old new : string) (skip : nat) (s : string) : string :=
  match s with
  | EmptyString => EmptyString
  | String c r =>
      match skip with
      | S k => replace_from old new k r
      | O =>
          if prefix old s
          then new ++ replace_from old new (String.length old - 1) r
          else String c (replace_from old new 0 r)
      end
  end.

Definition replace (s old new : string) : string := replace_from old new 0 s.

(** The label of a snapshot, lines 52 and 140:
    [os.path.basename(network_file).replace('.out', '')]. *)
Definition generation (network_file : string) : string :=
  replace (basename network_file) ".out" "".

(** [old in s]. *)
Fixpoint contains (old s : string) : bool :=
  match s with
  | EmptyString => prefix old s
  | String _ r => (prefix old s || contains old r)%bool
  end.

(** The filename stem, as the specification words it: the base name with its
    extension removed.  This follows [os.path.splitext]: the extension starts
    at the last dot, and leading dots do not start an extension. *)
Fixpoint has_dot (s : string) : bool :=
  match s with
  | EmptyString => false
  | String c r => (Ascii.eqb c dot || has_dot r)%bool
  end.

Fixpoint before_last_dot (s : string) : string :=
  match s with
  | EmptyString => EmptyString
  | String c r =>
      if has_dot r then String c (before_last_dot r)
      else if Ascii.eqb c dot then EmptyString else s
  end.

Fixpoint only_dots (s : string) : bool :=
  match s with
  | EmptyString => true
  | String c r => (Ascii.eqb c dot && only_dots r)%bool
  end.

Definition stem (name : string) : string :=
  let root := before_last_dot name in
  if only_dots root then name else root.

(** [str(n)] for a natural number. *)
Definition str_of_nat (n : nat) : string := NilZero.string_of_uint (Nat.to_uint n).

(* ----------------------------------------------------------------- *)
(** ** Lists: [sorted], extended slices, indexing *)

(** [ceil(n / s)] on integers. *)
Definition ceil_div (n s : Z) : Z := (- ((- n) / s))%Z.

Fixpoint insert_sorted (x : string) (xs : list string) : list string :=
  match xs with
  | [] => [x]
  | y :: ys => if String.leb x y then x :: xs else y :: insert_sorted x ys
  end.

(** [sorted(xs)] on strings: ascending in the lexicographic order of the
    characters' codes.  Strings that compare equal are equal, so every
    sorting algorithm yields this list. *)
Fixpoint sorted (xs : list string) : list string :=
  match xs with
  | [] => []
  | x :: xs' => insert_sorted x (sorted xs')
  end.

(** Keep one element, pass over [step - 1], and so on; [skip] elements are
    passed over before the next one kept. *)
Fixpoint every_nth {A : Type} (skip step : nat) (xs : list A) : list A :=
  match xs with
  | [] => []
  | x :: xs' =>
      match skip with
      | O => x :: every_nth (step - 1) step xs'
      | S k => every_nth k step xs'
      end
  end.

(** [xs[::step]]: a step of zero raises [ValueError]; a negative step walks
    from the last element backwards. *)
Definition slice_step {A : Type} (xs : list A) (step : Z) : outcome (list A) :=
  match step with
  | Z0 => Raise ValueError
  | Zpos p => Ok (every_nth 0 (Pos.to_nat p) xs)
  | Zneg p => Ok (every_nth 0 (Pos.to_nat p) (rev xs))
  end.

(** [xs[i]]: a negative index counts from the end; out of range raises. *)
Definition getitem {A : Type} (xs : list A) (i : Z) : outcome A :=
  let n := Z.of_nat (List.length xs) in
  let j := if (i <? 0)%Z then (i + n)%Z else i in
  if ((j <? 0) || (n <=? j))%Z%bool then Raise IndexError
  else match nth_error xs (Z.to_nat j) with
       | Some x => Ok x
       | None => Raise IndexError
       end.

(** [range(n)] as integers. *)
Definition range (n : Z) : list Z := map Z.of_nat (seq 0 (Z.to_nat n)).

(* ----------------------------------------------------------------- *)
(** ** IEEE-754 binary64 arithmetic

    Python's [float] and NumPy's [float64] are binary64.  A finite float is
    modelled by the rational it denotes, and every operation is the exact
    operation followed by rounding to the nearest float, ties to even.  The
    exponent range is not modelled: the magnitudes at hand (file counts,
    [1000 / fps]) stay far from overflow, and a quotient small enough to
    underflow truncates to [0] either way. *)

Open Scope Q_scope.

(** [floor (log2 x)] for [0 < x]. *)
Definition ilog2 (x : Q) : Z :=
  let k := (Z.log2 (Qnum x) - Z.log2 (Zpos (Qden x)))%Z in
  if Qle_bool (2 ^ k) x then k else (k - 1)%Z.

(** Nearest integer, ties to the even one.  This is also Python's [round]
    with one argument. *)
Definition round_half_even (y : Q) : Z :=
  let f := Qfloor y in
  match Qcompare (y - inject_Z f) (1 # 2) with
  | Lt => f
  | Gt => (f + 1)%Z
  | Eq => if Z.even f then f else (f + 1)%Z
  end.

(** The spacing of the floats around [x]: 53 significant bits. *)
Definition ulp (x : Q) : Q := 2 ^ (ilog2 x - 52).

Definition round_pos (x : Q) : Q :=
  inject_Z (round_half_even (x / ulp x)) * ulp x.

Definition round_binary64 (x : Q) : Q :=
  match Qnum x with
  | Z0 => 0
  | Zpos _ => round_pos x
  | Zneg _ => - round_pos (- x)
  end.

Definition float_of_Z (n : Z) : Q := round_binary64 (inject_Z n).
Definition fmul (x y : Q) : Q := round_binary64 (x * y).
Definition fdiv (x y : Q) : Q := round_binary64 (x / y).

(** Adding zero to a float is exact. *)
Definition fadd (x y : Q) : Q :=
  if Qeq_bool y 0 then x else round_binary64 (x + y).

(** [a / b] on Python integers: the correctly rounded quotient, or
    [ZeroDivisionError]. *)
Definition py_truediv (a b : Z) : outcome Q :=
  if (b =? 0)%Z then Raise ZeroDivisionError
  else Ok (fdiv (inject_Z a) (inject_Z b)).

(** [int(x)] on a float: truncation toward zero. *)
Definition py_int (x : Q) : Z := Z.quot (Qnum x) (Zpos (Qden x)).

(** Line 86 and line 177: [duration = int(1000 / fps)]. *)
Definition duration (fps : Z) : outcome Z :=
  q <- py_truediv 1000 fps ;; Ok (py_int q).

(** The reading of the specification: [round(1000 / fps)]. *)
Definition rounded_duration (fps : Z) : Z :=
  round_half_even (inject_Z 1000 / inject_Z fps).

(** The same operations on Rocq's primitive floats, which are the machine's
    binary64; used to test the rational model against the hardware. *)
Definition prim_of_Z (n : Z) : float := PrimFloat.of_uint63 (Uint63.of_Z n).

Definition Q_of_prim (f : float) : Q :=
  match Prim2SF f with
  | S754_finite s m e =>
      (if s then - (1) else 1) * inject_Z (Zpos m) * 2 ^ e
  | _ => 0
  end.

Definition agrees_div (a b : Z) : bool :=
  Qeq_bool (fdiv (float_of_Z a) (float_of_Z b))
           (Q_of_prim (PrimFloat.div (prim_of_Z a) (prim_of_Z b))).

Definition agrees_mul (i a b : Z) : bool :=
  Qeq_bool (fmul (float_of_Z i) (fdiv (float_of_Z a) (float_of_Z b)))
           (Q_of_prim (PrimFloat.mul (prim_of_Z i)
                         (PrimFloat.div (prim_of_Z a) (prim_of_Z b)))).

Definition upto (n : nat) : list Z := map Z.of_nat (seq 1 n).

(* ----------------------------------------------------------------- *)
(** ** [np.linspace(start, stop, num, dtype=int)]

    NumPy's algorithm with [endpoint=True]: [num < 0] raises [ValueError];
    otherwise [y = arange(0, num) * step + start] in binary64 with
    [step = (stop - start) / (num - 1)], the last entry is overwritten with
    [stop] when [num > 1], and the integer dtype takes the floor of every
    entry. *)

(** [y[-1] = v]. *)
Fixpoint set_last {A : Type} (ys : list A) (v : A) : list A :=
  match ys with
  | [] => []
  | [_] => [v]
  | y :: ys' => y :: set_last ys' v
  end.

Definition linspace_int (start stop num : Z) : outcome (list Z) :=
  if (num <? 0)%Z then Raise ValueError
  else
    let div := (num - 1)%Z in
    let delta := float_of_Z (stop - start) in
    let y := map float_of_Z (range num) in
    let y :=
      if (0 <? div)%Z then
        let step := fdiv delta (float_of_Z div) in
        if Qeq_bool step 0
        then map (fun yi => fmul (fdiv yi (float_of_Z div)) delta) y
        else map (fun yi => fmul yi step) y
      else map (fun yi => fmul yi delta) y in
    let y := map (fun yi => fadd yi (float_of_Z start)) y in
    let y := if (1 <? num)%Z then set_last y (float_of_Z stop) else y in
    Ok (map Qfloor y).

(** The step [np.linspace(0, d, v + 1)] computes, and the position it gives
    index [i] before the floor. *)
Definition step_of (d v : Z) : Q := fdiv (float_of_Z d) (float_of_Z v).

Definition position (d v i : Z) : Q := fmul (float_of_Z i) (step_of d v).

(** The exact quotient and the exact product these two round. *)
Definition exact_quotient (d v : Z) : Q := float_of_Z d / float_of_Z v.

Definition exact_product (d v i : Z) : Q := float_of_Z i * step_of d v.

(** The same algorithm on primitive floats. *)
Definition linspace_prim (start stop num : Z) : list Z :=
  let div := prim_of_Z (num - 1) in
  let delta := PrimFloat.sub (prim_of_Z stop) (prim_of_Z start) in
  let y := map prim_of_Z (range num) in
  let y :=
    if (0 <? num - 1)%Z then
      let step := PrimFloat.div delta div in
      if PrimFloat.eqb step PrimFloat.zero
      then map (fun yi => PrimFloat.mul (PrimFloat.div yi div) delta) y
      else map (fun yi => PrimFloat.mul yi step) y
    else map (fun yi => PrimFloat.mul yi delta) y in
  let y := map (fun yi => PrimFloat.add yi (prim_of_Z start)) y in
  let y := if (1 <? num)%Z then set_last y (prim_of_Z stop) else y in
  map (fun yi => Qfloor (Q_of_prim yi)) y.

Definition agrees_linspace (n k : Z) : bool :=
  match linspace_int 0 (n - 1) k with
  | Ok indices =>
      if list_eq_dec Z.eq_dec indices (linspace_prim 0 (n - 1) k) then true else false
  | Raise _ => false
  end.

(** Lines 132-134: the even sampling of the comparison pipeline. *)
Definition select_snapshots (network_files : list string) (num_snapshots : Z)
  : outcome (list string) :=
  let n := Z.of_nat (List.length network_files) in
  if (num_snapshots <? n)%Z then
    indices <- linspace_int 0 (n - 1) num_snapshots ;;
    mapM (getitem network_files) indices
  else Ok network_files.

(** The reading of the specification: the interpolated position rounded to
    the nearest integer. *)
Definition nearest_index (n k i : Z) : Z :=
  round_half_even (inject_Z (i * (n - 1)) / inject_Z (k - 1)).

Close Scope Q_scope.

(* ----------------------------------------------------------------- *)
(** ** The collaborators and the world

    The program delegates to code outside this file: [glob.glob] lists the
    directory, [vis.viewInd] draws a snapshot on a fresh Matplotlib figure,
    the Agg canvas rasterises the figure, [np.loadtxt] parses a snapshot,
    and Pillow's [Image.save] encodes the animation and writes the file.
    Their behaviour is a parameter: each of them may raise. *)

Record Env : Type := {
  Image : Type;
  Drawing : Type;
  (** [glob.glob(pattern)]: the matching paths, in no particular order. *)
  glob : string -> list string;
  (** [nv.viewInd(network_file, task_name)]: the drawing on a new figure,
      or an exception. *)
  viewInd : string -> string -> outcome Drawing;
  (** Whether a call of [nv.viewInd] that raises had created its figure
      before it raised.  The caller holds no reference to such a figure. *)
  viewInd_leaks : string -> string -> bool;
  (** [ax.set_title(title, ...)], [fig.canvas.draw()],
      [fig.canvas.tostring_rgb()], [reshape] and [Image.fromarray]: the
      bitmap of a drawing under a title, or an exception. *)
  rasterize : Drawing -> string -> outcome Image;
  (** [np.loadtxt(network_file, delimiter=',')]: the rows of the matrix. *)
  loadtxt : string -> outcome (list (list Q));
  (** [frames[0].save(fp, save_all=True, append_images=frames[1:],
      duration=duration, loop=loop)], given the path, all the frames, the
      duration and the loop count: whether the call returns, or the
      exception it raises (an unwritable path, a full disk, a duration the
      encoder refuses, as a negative one). *)
  image_save : string -> list Image -> Z -> Z -> outcome unit
}.

(** An animation as the program asks for it: the arguments of the call of
    [Image.save] that wrote it, which are the frames in order, the
    [duration] of each in milliseconds, and the [loop] count, where Pillow
    reads [0] as looping for ever.  How the encoder stores them is its own
    matter and is not described here: a GIF keeps its delays in hundredths
    of a second. *)
Record Gif (E : Env) : Type := {
  gif_frames : list (Image E);
  gif_duration : Z;
  gif_loop : Z
}.

(** What the program prints. *)
Inductive message : Type :=
| NoFilesFound (networks_dir : string)
| FoundFiles (n : nat)
| CreatingGif (n : nat)
| CreatingComparison (n : nat)
| Processing (i total : nat) (label : string)
| ErrorProcessing (network_file : string) (e : exn)
| NoFrames
| Saving (output_gif : string)
| Saved (n : nat) (output_gif : string)
| GifSettings (fps duration : Z).

(** The state the program acts on: the animations it has written, by path
    (paths are told apart as strings), the figures pyplot keeps alive, by
    number, and the console. *)
Record World (E : Env) : Type := {
  written : list (string * Gif E);
  open_figures : list nat;
  console : list message
}.

Section Effects.
Variable E : Env.

Definition print (m : message) (w : World E) : World E :=
  {| written := written w;
     open_figures := open_figures w;
     console := console w ++ [m] |}.

(** The number pyplot gives a figure created without one: one more than
    the largest number in use, and 1 when no figure is open. *)
Definition fresh_figure (figures : list nat) : nat := S (list_max figures).

(** [plt.figure()]: a figure is created and registered under its number. *)
Definition new_figure (w : World E) : nat * World E :=
  (fresh_figure (open_figures w),
   {| written := written w;
      open_figures := open_figures w ++ [fresh_figure (open_figures w)];
      console := console w |}).

(** [plt.close(fig)]. *)
Definition close (fig : nat) (w : World E) : World E :=
  {| written := written w;
     open_figures := List.filter (fun f => negb (Nat.eqb f fig)) (open_figures w);
     console := console w |}.

(** [first.save(fp, save_all=True, append_images=rest, duration=d, loop=l)].
    When the call returns there is one animation at [fp], replacing what
    was there.  When it raises, the exception goes to the caller and the
    world keeps no animation at [fp]: Pillow opens the file for writing,
    which empties it, before it encodes, and removes a file it had created;
    where the call fails before it opens the file, what was there stays,
    but the world no longer vouches for it. *)
Definition save (first : Image E) (fp : string) (append_images : list (Image E))
           (duration loop : Z) (w : World E) : World E * outcome unit :=
  let others := List.filter (fun e => negb (String.eqb (fst e) fp)) (written w) in
  match image_save E fp (first :: append_images) duration loop with
  | Ok _ =>
      ({| written :=
            (fp, {| gif_frames := first :: append_images;
                    gif_duration := duration;
                    gif_loop := loop |}) :: others;
          open_figures := open_figures w;
          console := console w |}, Ok tt)
  | Raise e =>
      ({| written := others;
          open_figures := open_figures w;
          console := console w |}, Raise e)
  end.

(** The file at a path, if the program has written one. *)
Fixpoint lookup (fp : string) (files : list (string * Gif E)) : option (Gif E) :=
  match files with
  | [] => None
  | (p, g) :: rest => if String.eqb p fp then Some g else lookup fp rest
  end.
End Effects.

(* ----------------------------------------------------------------- *)
(** ** The two pipelines *)

Unset Implicit Arguments.

Definition newline : string := String (ascii_of_nat 10) EmptyString.

(** [wMat = ind[:, :-1]].  [np.loadtxt] squeezes its result, so a file of a
    single row or a single column gives a one-dimensional array, on which
    the two-axis index raises [IndexError]. *)
Definition weight_matrix (ind : list (list Q)) : outcome (list (list Q)) :=
  let rows := List.length ind in
  let cols := match ind with [] => O | r :: _ => List.length r end in
  if ((rows <=? 1) || (cols <=? 1))%nat%bool then Raise IndexError
  else Ok (map (@removelast Q) ind).

(** [np.sum(wMat != 0)]. *)
Definition count_nonzero (wMat : list (list Q)) : nat :=
  list_sum (map (fun row => List.length (List.filter (fun x => negb (Qeq_bool x 0)) row)) wMat).

Definition frame_of {A : Type} (r : option A) : list A :=
  match r with
  | Some img => [img]
  | None => []
  end.

Section Pipelines.
Variable E : Env.

Definition State : Type := (World E * list (Image E))%type.

(** Lines 52-79, the body of the loop of [visualize_network_evolution];
    [i] is the index [enumerate] gives, [total] is [len(network_files)].
    The figure [nv.viewInd] draws on is closed at the end of the [try]
    block only: the handler of line 77 closes nothing, whether the figure
    came back from [nv.viewInd] or was left behind by it. *)
Definition render_frame (task_name : string) (total i : nat)
           (network_file : string) (st : State) : State :=
  let (w, frames) := st in
  let generation := generation network_file in
  let w := print (Processing (i + 1) total generation) w in
  match viewInd E network_file task_name with
  | Raise e =>
      let w := if viewInd_leaks E network_file task_name
               then snd (new_figure w) else w in
      (print (ErrorProcessing network_file e) w, frames)
  | Ok drawing =>
      let (fig, w) := new_figure w in
      match rasterize E drawing ("Generation " ++ generation) with
      | Raise e => (print (ErrorProcessing network_file e) w, frames)
      | Ok img => (close fig w, (frames ++ [img])%list)
      end
  end.

(** Lines 140-170, the body of the loop of [create_comparison_gif]. *)
Definition render_snapshot (task_name : string) (total i : nat)
           (network_file : string) (st : State) : State :=
  let (w, frames) := st in
  let generation := generation network_file in
  let w := print (Processing (i + 1) total generation) w in
  match (ind <- loadtxt E network_file ;; weight_matrix ind) with
  | Raise e => (print (ErrorProcessing network_file e) w, frames)
  | Ok wMat =>
      let num_connections := count_nonzero wMat in
      let num_nodes := List.length wMat in
      match viewInd E network_file task_name with
      | Raise e =>
          let w := if viewInd_leaks E network_file task_name
                   then snd (new_figure w) else w in
          (print (ErrorProcessing network_file e) w, frames)
      | Ok drawing =>
          let (fig, w) := new_figure w in
          let title_text :=
            "Generation " ++ generation ++ newline ++
            "Nodes: " ++ str_of_nat num_nodes ++
            " | Connections: " ++ str_of_nat num_connections in
          match rasterize E drawing title_text with
          | Raise e => (print (ErrorProcessing network_file e) w, frames)
          | Ok img => (close fig w, (frames ++ [img])%list)
          end
      end
  end.

(** [for i, network_file in enumerate(network_files): body]. *)
Fixpoint for_enumerate (body : nat -> string -> State -> State) (i : nat)
         (network_files : list string) (st : State) : State :=
  match network_files with
  | [] => st
  | network_file :: rest =>
      for_enumerate body (S i) rest (body i network_file st)
  end.

(** Lines 81-98 and 172-188: the check for frames, the duration, the write.
    [settings] tells whether the last line printed is the one of line 98,
    which only [visualize_network_evolution] has.  Nothing catches what the
    duration computation or [Image.save] raises. *)
Definition save_frames (settings : bool) (output_gif : string) (fps : Z)
           (st : State) : World E * outcome unit :=
  let (w, frames) := st in
  match frames with
  | [] => (print NoFrames w, Ok tt)
  | first :: rest =>
      match duration fps with
      | Raise e => (w, Raise e)
      | Ok duration =>
          let w := print (Saving output_gif) w in
          match save first output_gif rest duration 0 w with
          | (w, Raise e) => (w, Raise e)
          | (w, Ok _) =>
              let w := print (Saved (List.length frames) output_gif) w in
              (if settings then print (GifSettings fps duration) w else w, Ok tt)
          end
      end
  end.

(** Lines 14-98.  [figsize] and [dpi] are never read by the body. *)
Definition visualize_network_evolution
           (networks_dir output_gif task_name : string) (fps sample_every : Z)
           (w : World E) : World E * outcome unit :=
  let network_files := sorted (glob E (os_path_join networks_dir "*.out")) in
  match network_files with
  | [] => (print (NoFilesFound networks_dir) w, Ok tt)
  | _ :: _ =>
      match slice_step network_files sample_every with
      | Raise e => (w, Raise e)
      | Ok network_files =>
          let total := List.length network_files in
          let w := print (CreatingGif total) (print (FoundFiles total) w) in
          save_frames true output_gif fps
            (for_enumerate (render_frame task_name total) 0 network_files (w, []))
      end
  end.

(** Lines 101-188. *)
Definition create_comparison_gif
           (networks_dir output_gif task_name : string) (fps num_snapshots : Z)
           (w : World E) : World E * outcome unit :=
  let network_files := sorted (glob E (os_path_join networks_dir "*.out")) in
  match network_files with
  | [] => (print (NoFilesFound networks_dir) w, Ok tt)
  | _ :: _ =>
      match select_snapshots network_files num_snapshots with
      | Raise e => (w, Raise e)
      | Ok network_files =>
          let total := List.length network_files in
          let w := print (CreatingComparison total) w in
          save_frames false output_gif fps
            (for_enumerate (render_snapshot task_name total) 0 network_files (w, []))
      end
  end.

(** What one file contributes to the frames: its bitmap when every step of
    the loop body goes through, nothing when one of them raises. *)
Definition rendered (task_name : string) (network_file : string) : option (Image E) :=
  match viewInd E network_file task_name with
  | Raise _ => None
  | Ok drawing =>
      match rasterize E drawing ("Generation " ++ generation network_file) with
      | Raise _ => None
      | Ok img => Some img
      end
  end.

(** The same for the body of the comparison pipeline. *)
Definition rendered_snapshot (task_name : string) (network_file : string)
  : option (Image E) :=
  match (ind <- loadtxt E network_file ;; weight_matrix ind) with
  | Raise _ => None
  | Ok wMat =>
      match viewInd E network_file task_name with
      | Raise _ => None
      | Ok drawing =>
          match rasterize E drawing
                  ("Generation " ++ generation network_file ++ newline ++
                   "Nodes: " ++ str_of_nat (List.length wMat) ++
                   " | Connections: " ++ str_of_nat (count_nonzero wMat)) with
          | Raise _ => None
          | Ok img => Some img
          end
      end
  end.

Definition renders (task_name : string) (network_file : string) : bool :=
  match rendered task_name network_file with
  | Some _ => true
  | None => false
  end.

(** The files of a list that render, and their bitmaps, in the list's order. *)
Fixpoint successes (task_name : string) (network_files : list string)
  : list (string * Image E) :=
  match network_files with
  | [] => []
  | f :: rest =>
      match rendered task_name f with
      | Some img => (f, img) :: successes task_name rest
      | None => successes task_name rest
      end
  end.

(** The frames the loop of the plain pipeline collects from a list of
    files, and those the loop of the comparison pipeline collects. *)
Definition rendered_frames (task_name : string) (network_files : list string)
  : list (Image E) :=
  flat_map (fun f => frame_of (rendered task_name f)) network_files.

Definition rendered_snapshots (task_name : string) (network_files : list string)
  : list (Image E) :=
  flat_map (fun f => frame_of (rendered_snapshot task_name f)) network_files.

(** Whether an iteration leaves a figure open: it does when something
    raised after the figure had been created, be it in [viewInd] itself or
    in the steps up to [Image.fromarray]. *)
Definition leaks (task_name : string) (network_file : string) : bool :=
  match viewInd E network_file task_name with
  | Raise _ => viewInd_leaks E network_file task_name
  | Ok drawing =>
      match rasterize E drawing ("Generation " ++ generation network_file) with
      | Raise _ => true
      | Ok _ => false
      end
  end.

End Pipelines.

Definition empty_world (E : Env) : World E :=
  {| written := []; open_figures := []; console := [] |}.

(* ----------------------------------------------------------------- *)
(** ** Example environments

    A directory given by the paths [glob] returns, a renderer that fails in
    [viewInd] on the files [draw_fails] names, before it creates a figure,
    and in the rasterisation on those [raster_fails] names, bitmaps that are
    just the titles, and a writer that refuses a negative duration. *)

Definition matrix_3x4 : list (list Q) :=
  [[0; 1; 0; 1]; [1 # 2; 0; 0; 1]; [0; 0; 3; 0]]%Q.

Definition example_env (paths : list string) (draw_fails raster_fails : string -> bool)
  : Env :=
  {| Image := string;
     Drawing := string;
     glob := fun _ => paths;
     viewInd := fun network_file _ =>
       if draw_fails network_file then Raise (OtherError "cannot draw")
       else Ok network_file;
     viewInd_leaks := fun _ _ => false;
     rasterize := fun drawing title =>
       if raster_fails drawing then Raise (OtherError "cannot rasterize")
       else Ok title;
     loadtxt := fun _ => Ok matrix_3x4;
     image_save := fun _ _ duration _ =>
       if (duration <? 0)%Z then Raise (OtherError "negative duration") else Ok tt |}.

Definition nowhere (_ : string) : bool := false.
Definition everywhere (_ : string) : bool := true.

Definition three_generations : list string :=
  ["log/gen3.out"; "log/gen1.out"; "log/gen2.out"].

Definition five_generations : list string :=
  ["log/gen1.out"; "log/gen2.out"; "log/gen3.out"; "log/gen4.out"; "log/gen5.out"].

(** Three snapshots that all render. *)
Definition three_snapshots : Env := example_env three_generations nowhere nowhere.

(** Three snapshots, of which the second raises in the rasterisation. *)
Definition one_bad_snapshot : Env :=
  example_env three_generations nowhere (String.eqb "log/gen2.out").

(** Three snapshots, on each of which [viewInd] raises. *)
Definition no_snapshot_draws : Env :=
  example_env three_generations everywhere nowhere.

(** The order [sorted] establishes. *)
Definition le_string (a b : string) : Prop := String.leb a b = true.

(* ----------------------------------------------------------------- *)
(** ** Observations on a run *)

(** The files the console reports as failed, in the order of the reports
    ([Error processing {network_file}: {e}], lines 78 and 169). *)
Definition logged_errors (console : list message) : list string :=
  flat_map (fun m => match m with
                     | ErrorProcessing network_file _ => [network_file]
                     | _ => []
                     end) console.

(** The counters of the progress lines ([Processing {i+1}/{total}], lines
    53 and 141), with the totals they were printed against. *)
Definition progress (console : list message) : list (nat * nat) :=
  flat_map (fun m => match m with
                     | Processing i total _ => [(i, total)]
                     | _ => []
                     end) console.

Definition renders_snapshot (E : Env) (task_name network_file : string) : bool :=
  match rendered_snapshot E task_name network_file with
  | Some _ => true
  | None => false
  end.

(** Whether an iteration of the comparison pipeline leaves a figure open:
    the matrix was loaded and sliced, and something raised after the figure
    had been created. *)
Definition leaks_snapshot (E : Env) (task_name network_file : string) : bool :=
  match (ind <- loadtxt E network_file ;; weight_matrix ind) with
  | Raise _ => false
  | Ok wMat =>
      match viewInd E network_file task_name with
      | Raise _ => viewInd_leaks E network_file task_name
      | Ok drawing =>
          match rasterize E drawing
                  ("Generation " ++ generation network_file ++ newline ++
                   "Nodes: " ++ str_of_nat (List.length wMat) ++
                   " | Connections: " ++ str_of_nat (count_nonzero wMat)) with
          | Raise _ => true
          | Ok _ => false
          end
      end
  end.

(** [s] holds a slash. *)
Fixpoint has_slash (s : string) : bool :=
  match s with
  | EmptyString => false
  | String c r => (Ascii.eqb c slash || has_slash r)%bool
  end.

(** A matrix with one more column: [np.column_stack((m, column))]. *)
Fixpoint with_last_column (m : list (list Q)) (column : list Q) : list (list Q) :=
  match m, column with
  | row :: m', x :: column' => (row ++ [x])%list :: with_last_column m' column'
  | _, _ => []
  end.

(* ================================================================= *)
(** * Part II: lemmas and theorems *)

(* ----------------------------------------------------------------- *)
(** ** Rounding to binary64 *)

Open Scope Q_scope.

Lemma ratio_bounds (A B PA PB : Q) :
  0 < PA -> 0 < PB -> PA <= A -> A < 2 * PA -> PB <= B -> B < 2 * PB ->
  PA / (2 * PB) < A / B /\ A / B < 2 * PA / PB.
Proof.
  intros HPA HPB H1 H2 H3 H4.
  assert (HB : 0 < B) by lra.
  split.
  - apply Qlt_shift_div_l; [lra|].
    assert (E : PA / (2 * PB) * B == PA * (B / (2 * PB))) by (field; lra).
    rewrite E.
    assert (B / (2 * PB) < 1). { apply Qlt_shift_div_r; lra. }
    nra.
  - apply Qlt_shift_div_r; [lra|].
    assert (E : 2 * PA / PB * B == 2 * PA * (B / PB)) by (field; lra).
    rewrite E.
    assert (1 <= B / PB). { apply Qle_shift_div_l; lra. }
    nra.
Qed.

Lemma two_pow_pos (k : Z) : 0 < 2 ^ k.
Proof. apply Qpower_0_lt; lra. Qed.

Lemma two_pow_succ (k : Z) : 2 ^ (k + 1) == 2 * 2 ^ k.
Proof. rewrite Qpower_plus by lra. simpl (2 ^ 1). ring. Qed.

Lemma two_pow_pred (k : Z) : 2 ^ (k - 1) == 2 ^ k / 2.
Proof.
  assert (H := two_pow_succ (k - 1)).
  replace (k - 1 + 1)%Z with k in H by lia. rewrite H. field.
Qed.

Lemma log2_bounds (a : Z) :
  (0 < a)%Z -> 2 ^ Z.log2 a <= inject_Z a /\ inject_Z a < 2 * 2 ^ Z.log2 a.
Proof.
  intros Ha. destruct (Z.log2_spec a Ha) as [H1 H2].
  assert (H0 := Z.log2_nonneg a).
  split.
  - rewrite <- (Zpower_Qpower 2 (Z.log2 a)) by exact H0.
    rewrite <- Zle_Qle. exact H1.
  - rewrite <- two_pow_succ.
    rewrite <- (Zpower_Qpower 2 (Z.log2 a + 1)) by lia.
    rewrite <- Zlt_Qlt. rewrite <- Z.add_1_r in H2. exact H2.
Qed.

Lemma ilog2_spec (x : Q) :
  0 < x -> 2 ^ ilog2 x <= x /\ x < 2 ^ (ilog2 x + 1).
Proof.
  intros Hx. destruct x as [a b]. unfold ilog2. cbn [Qnum Qden].
  assert (Ha : (0 < a)%Z). { unfold Qlt in Hx. cbn in Hx. lia. }
  destruct (log2_bounds a Ha) as [A1 A2].
  destruct (log2_bounds (Zpos b) eq_refl) as [B1 B2].
  set (la := Z.log2 a) in *. set (lb := Z.log2 (Zpos b)) in *.
  assert (Hq : a # b == inject_Z a / inject_Z (Zpos b)) by apply Qmake_Qdiv.
  assert (Hk : 2 ^ (la - lb) == 2 ^ la / 2 ^ lb) by (apply Qpower_minus; lra).
  destruct (ratio_bounds _ _ _ _ (two_pow_pos la) (two_pow_pos lb) A1 A2 B1 B2) as [R1 R2].
  destruct (Qle_bool (2 ^ (la - lb)) (a # b)) eqn:Hc.
  - apply Qle_bool_iff in Hc. split; [exact Hc|].
    rewrite two_pow_succ, Hk, Hq.
    assert (E : 2 * (2 ^ la / 2 ^ lb) == 2 * 2 ^ la / 2 ^ lb).
    { field. pose proof (two_pow_pos lb). lra. }
    rewrite E. exact R2.
  - assert (Hlt : a # b < 2 ^ (la - lb)).
    { apply Qnot_le_lt. intro H. apply Qle_bool_iff in H. congruence. }
    replace (la - lb - 1 + 1)%Z with (la - lb)%Z by lia.
    split; [|exact Hlt].
    rewrite two_pow_pred, Hk, Hq.
    assert (E : 2 ^ la / 2 ^ lb / 2 == 2 ^ la / (2 * 2 ^ lb)).
    { field. pose proof (two_pow_pos lb). lra. }
    rewrite E. apply Qlt_le_weak. exact R1.
Qed.

Lemma round_half_even_near (y : Q) :
  y - (1 # 2) <= inject_Z (round_half_even y) /\
  inject_Z (round_half_even y) <= y + (1 # 2).
Proof.
  unfold round_half_even.
  pose proof (Qfloor_le y) as F1. pose proof (Qlt_floor y) as F2.
  rewrite inject_Z_plus in F2. change (inject_Z 1) with 1 in F2.
  set (f := Qfloor y) in *.
  destruct (Qcompare (y - inject_Z f) (1 # 2)) eqn:C.
  - apply Qeq_alt in C.
    destruct (Z.even f);
      [|rewrite inject_Z_plus; change (inject_Z 1) with 1]; split; lra.
  - apply Qlt_alt in C. split; lra.
  - apply Qgt_alt in C. rewrite inject_Z_plus. change (inject_Z 1) with 1.
    split; lra.
Qed.

Lemma round_half_even_ge (y : Q) (n : Z) :
  inject_Z n <= y -> (n <= round_half_even y)%Z.
Proof.
  intros H. apply Qfloor_resp_le in H. rewrite Qfloor_Z in H.
  unfold round_half_even.
  destruct (Qcompare (y - inject_Z (Qfloor y)) (1 # 2)); [destruct (Z.even (Qfloor y))| |]; lia.
Qed.

Lemma round_half_even_le (y : Q) (n : Z) :
  y <= inject_Z n -> (round_half_even y <= n)%Z.
Proof.
  intros H.
  pose proof (Qfloor_le y) as F1.
  assert (L : (Qfloor y <= n)%Z).
  { rewrite Zle_Qle. lra. }
  unfold round_half_even.
  destruct (Qcompare (y - inject_Z (Qfloor y)) (1 # 2)) eqn:C.
  - apply Qeq_alt in C. destruct (Z.even (Qfloor y)); [exact L|].
    assert (Qfloor y < n)%Z; [|lia]. rewrite Zlt_Qlt. lra.
  - exact L.
  - apply Qgt_alt in C.
    assert (Qfloor y < n)%Z; [|lia]. rewrite Zlt_Qlt. lra.
Qed.

Lemma ulp_pos (x : Q) : 0 < ulp x.
Proof. apply two_pow_pos. Qed.

Lemma ulp_le (x : Q) : 0 < x -> ulp x * 2 ^ 52 <= x.
Proof.
  intros Hx. destruct (ilog2_spec x Hx) as [H _].
  unfold ulp. rewrite <- Qpower_plus by lra.
  replace (ilog2 x - 52 + 52)%Z with (ilog2 x) by lia. exact H.
Qed.

Lemma round_pos_near (x : Q) :
  0 < x ->
  x - (1 # 2) * ulp x <= round_pos x /\ round_pos x <= x + (1 # 2) * ulp x.
Proof.
  intros Hx. unfold round_pos.
  pose proof (ulp_pos x) as U.
  destruct (round_half_even_near (x / ulp x)) as [N1 N2].
  set (m := inject_Z (round_half_even (x / ulp x))) in *.
  assert (E : x == x / ulp x * ulp x) by (field; lra).
  set (y := x / ulp x) in *. set (u := ulp x) in *.
  clearbody m y u. clear Hx.
  assert (A1 : 0 <= (m - y + (1 # 2)) * u) by (apply Qmult_le_0_compat; lra).
  assert (A2 : 0 <= (y + (1 # 2) - m) * u) by (apply Qmult_le_0_compat; lra).
  split; lra.
Qed.

(** The relative error of one rounding is at most [2^-53]. *)
Lemma round_pos_error (x : Q) :
  0 < x ->
  x * (2 ^ 53 - 1) <= round_pos x * 2 ^ 53 /\
  round_pos x * 2 ^ 53 <= x * (2 ^ 53 + 1).
Proof.
  intros Hx. destruct (round_pos_near x Hx) as [N1 N2].
  pose proof (ulp_le x Hx) as U.
  set (r := round_pos x) in *. set (u := ulp x) in *. clearbody r u.
  split; lra.
Qed.

Lemma round_binary64_pos (x : Q) : 0 < x -> round_binary64 x = round_pos x.
Proof.
  intros Hx. unfold round_binary64. destruct x as [a b]. cbn [Qnum].
  unfold Qlt in Hx. cbn in Hx. destruct a; try lia. reflexivity.
Qed.

(** Below [2^53] the floats include every integer, so rounding never
    crosses one. *)
Lemma ilog2_small (x : Q) : 0 < x -> x < 2 ^ 53 -> (ilog2 x <= 52)%Z.
Proof.
  intros Hx Hb. destruct (ilog2_spec x Hx) as [H _].
  assert (L : 2 ^ ilog2 x < 2 ^ 53) by (eapply Qle_lt_trans; eassumption).
  apply Qpower_lt_compat_l_inv in L; [lia | reflexivity].
Qed.

Lemma ulp_small (x : Q) :
  0 < x -> x < 2 ^ 53 ->
  exists j : Z, (0 <= j)%Z /\ ulp x * inject_Z (2 ^ j) == 1.
Proof.
  intros Hx Hb. pose proof (ilog2_small x Hx Hb) as K.
  exists (52 - ilog2 x)%Z. split; [lia|].
  rewrite Zpower_Qpower by lia. unfold ulp.
  rewrite <- Qpower_plus by (cbn; lra).
  replace (ilog2 x - 52 + (52 - ilog2 x))%Z with 0%Z by lia. reflexivity.
Qed.

Lemma scaled_by_ulp (x : Q) (j : Z) :
  ulp x * inject_Z (2 ^ j) == 1 -> x / ulp x == x * inject_Z (2 ^ j).
Proof.
  intros Ej. pose proof (ulp_pos x) as U.
  assert (P : inject_Z (2 ^ j) == / ulp x).
  { rewrite <- (Qmult_1_l (/ ulp x)), <- Ej. field. lra. }
  rewrite P. reflexivity.
Qed.

Lemma round_pos_ge_int (x : Q) (n : Z) :
  0 < x -> x < 2 ^ 53 -> inject_Z n <= x -> inject_Z n <= round_pos x.
Proof.
  intros Hx Hb Hn. destruct (ulp_small x Hx Hb) as (j & Hj & Ej).
  pose proof (ulp_pos x) as U. pose proof (scaled_by_ulp x j Ej) as Ey.
  assert (P : 0 < inject_Z (2 ^ j)).
  { rewrite <- (Zlt_Qlt 0). apply Z.pow_pos_nonneg; lia. }
  assert (G : inject_Z (n * 2 ^ j) <= x / ulp x).
  { rewrite Ey, inject_Z_mult. apply Qmult_le_compat_r; lra. }
  apply round_half_even_ge in G. rewrite Zle_Qle, inject_Z_mult in G.
  unfold round_pos.
  set (m := inject_Z (round_half_even (x / ulp x))) in *.
  set (u := ulp x) in *. set (p := inject_Z (2 ^ j)) in *.
  clearbody m u p.
  assert (A : 0 <= (m - inject_Z n * p) * u) by (apply Qmult_le_0_compat; lra).
  assert (B : inject_Z n * p * u == inject_Z n * (u * p)) by ring.
  rewrite Ej in B. lra.
Qed.

Lemma round_pos_le_int (x : Q) (n : Z) :
  0 < x -> x < 2 ^ 53 -> x <= inject_Z n -> round_pos x <= inject_Z n.
Proof.
  intros Hx Hb Hn. destruct (ulp_small x Hx Hb) as (j & Hj & Ej).
  pose proof (ulp_pos x) as U. pose proof (scaled_by_ulp x j Ej) as Ey.
  assert (P : 0 < inject_Z (2 ^ j)).
  { rewrite <- (Zlt_Qlt 0). apply Z.pow_pos_nonneg; lia. }
  assert (G : x / ulp x <= inject_Z (n * 2 ^ j)).
  { rewrite Ey, inject_Z_mult. apply Qmult_le_compat_r; lra. }
  apply round_half_even_le in G. rewrite Zle_Qle, inject_Z_mult in G.
  unfold round_pos.
  set (m := inject_Z (round_half_even (x / ulp x))) in *.
  set (u := ulp x) in *. set (p := inject_Z (2 ^ j)) in *.
  clearbody m u p.
  assert (A : 0 <= (inject_Z n * p - m) * u) by (apply Qmult_le_0_compat; lra).
  assert (B : inject_Z n * p * u == inject_Z n * (u * p)) by ring.
  rewrite Ej in B. lra.
Qed.

(** Integers up to [2^53] are floats. *)
Lemma float_of_Z_exact (n : Z) :
  (0 <= n < 2 ^ 53)%Z -> float_of_Z n == inject_Z n.
Proof.
  intros [H0 Hb]. unfold float_of_Z.
  destruct (Z.eq_dec n 0) as [->|Hn]; [reflexivity|].
  assert (Hx : 0 < inject_Z n) by (rewrite <- (Zlt_Qlt 0); lia).
  assert (Hs : inject_Z n < 2 ^ 53).
  { change (2 ^ 53)%Q with (inject_Z (2 ^ 53)). rewrite <- Zlt_Qlt. exact Hb. }
  rewrite round_binary64_pos by exact Hx.
  apply Qle_antisym.
  - apply round_pos_le_int; try assumption. apply Qle_refl.
  - apply round_pos_ge_int; try assumption. apply Qle_refl.
Qed.

(* ----------------------------------------------------------------- *)
(** ** The positions [np.linspace] computes *)

Lemma inject_Z_pos (n : Z) : (0 < n)%Z -> 0 < inject_Z n.
Proof. intros H. rewrite <- (Zlt_Qlt 0). exact H. Qed.

Lemma inject_Z_lt_two53 (n : Z) : (n < 2 ^ 53)%Z -> inject_Z n < 2 ^ 53.
Proof.
  intros H. change (2 ^ 53)%Q with (inject_Z (2 ^ 53)). rewrite <- Zlt_Qlt. exact H.
Qed.

Section Step.
Variables d v : Z.
Hypothesis Hv : (0 < v)%Z.
Hypothesis Hvd : (v <= d)%Z.
Hypothesis Hd : (d < 2 ^ 53)%Z.

Lemma quotient_exact : (exact_quotient d v) * inject_Z v == inject_Z d.
Proof.
  unfold exact_quotient. rewrite (float_of_Z_exact d), (float_of_Z_exact v) by lia.
  field. pose proof (inject_Z_pos v Hv). lra.
Qed.

Lemma quotient_ge_1 : 1 <= (exact_quotient d v).
Proof.
  pose proof quotient_exact as E. pose proof (inject_Z_pos v Hv) as V.
  assert (L : inject_Z v <= inject_Z d) by (rewrite <- Zle_Qle; exact Hvd).
  apply Qnot_lt_le. intros C.
  assert ((exact_quotient d v) * inject_Z v < 1 * inject_Z v) by (apply Qmult_lt_compat_r; assumption).
  lra.
Qed.

Lemma quotient_lt_two53 : (exact_quotient d v) < 2 ^ 53.
Proof.
  pose proof quotient_exact as E. pose proof (inject_Z_pos v Hv) as V.
  pose proof (inject_Z_lt_two53 d Hd) as D.
  assert (L : 1 <= inject_Z v) by (rewrite <- (Zle_Qle 1); lia).
  pose proof quotient_ge_1 as G.
  assert (0 <= ((exact_quotient d v) - 0) * (inject_Z v - 1)) by (apply Qmult_le_0_compat; lra).
  lra.
Qed.

Lemma step_is_round_pos : step_of d v = round_pos (exact_quotient d v).
Proof.
  unfold step_of, fdiv. apply round_binary64_pos.
  pose proof quotient_ge_1. fold (exact_quotient d v). lra.
Qed.

Lemma step_ge_1 : 1 <= step_of d v.
Proof.
  rewrite step_is_round_pos. pose proof quotient_ge_1 as G.
  apply (round_pos_ge_int (exact_quotient d v) 1); [lra | apply quotient_lt_two53 | exact G].
Qed.

(** The step times [v] is [d] up to a relative error of [2^-53]. *)
Lemma step_error :
  inject_Z d * (2 ^ 53 - 1) <= step_of d v * inject_Z v * 2 ^ 53 /\
  step_of d v * inject_Z v * 2 ^ 53 <= inject_Z d * (2 ^ 53 + 1).
Proof.
  rewrite step_is_round_pos.
  pose proof quotient_ge_1 as G. pose proof quotient_exact as E.
  pose proof (inject_Z_pos v Hv) as V.
  destruct (round_pos_error (exact_quotient d v) ltac:(lra)) as [E1 E2].
  set (s := round_pos (exact_quotient d v)) in *. clearbody s.
  set (x := (exact_quotient d v)) in *. clearbody x. set (z := inject_Z v) in *. clearbody z.
  set (y := inject_Z d) in *. clearbody y.
  assert (A1 : 0 <= (s * 2 ^ 53 - x * (2 ^ 53 - 1)) * z) by (apply Qmult_le_0_compat; lra).
  assert (A2 : 0 <= (x * (2 ^ 53 + 1) - s * 2 ^ 53) * z) by (apply Qmult_le_0_compat; lra).
  split; lra.
Qed.
End Step.

Lemma position_0 (d v : Z) : position d v 0 = 0.
Proof. reflexivity. Qed.

Section Position.
Variables d v i : Z.
Hypothesis Hv : (0 < v)%Z.
Hypothesis Hvd : (v <= d)%Z.
Hypothesis Hd : (d < 2 ^ 53)%Z.
Hypothesis Hi : (0 < i < 2 ^ 53)%Z.

Lemma product_pos : 0 < (exact_product d v i).
Proof.
  unfold exact_product. rewrite (float_of_Z_exact i) by lia.
  pose proof (step_ge_1 d v Hv Hvd Hd). pose proof (inject_Z_pos i ltac:(lia)).
  apply Qmult_lt_0_compat; lra.
Qed.

Lemma position_is_round_pos : position d v i = round_pos (exact_product d v i).
Proof. unfold position, fmul. apply round_binary64_pos, product_pos. Qed.

(** The exact product [i * step], times [v], is [i * d] up to [2^-53]. *)
Lemma product_error :
  inject_Z (i * d) * (2 ^ 53 - 1) <= (exact_product d v i) * inject_Z v * 2 ^ 53 /\
  (exact_product d v i) * inject_Z v * 2 ^ 53 <= inject_Z (i * d) * (2 ^ 53 + 1).
Proof.
  destruct (step_error d v Hv Hvd Hd) as [S1 S2].
  unfold exact_product. rewrite (float_of_Z_exact i) by lia. rewrite inject_Z_mult.
  pose proof (inject_Z_pos i ltac:(lia)) as I.
  set (s := step_of d v) in *. clearbody s.
  set (a := inject_Z i) in *. set (b := inject_Z d) in *. set (c := inject_Z v) in *.
  clearbody a b c.
  assert (A1 : 0 <= a * (s * c * 2 ^ 53 - b * (2 ^ 53 - 1))) by (apply Qmult_le_0_compat; lra).
  assert (A2 : 0 <= a * (b * (2 ^ 53 + 1) - s * c * 2 ^ 53)) by (apply Qmult_le_0_compat; lra).
  split; lra.
Qed.

(** The rounded product, likewise, up to two roundings. *)
Lemma position_error :
  inject_Z (i * d) * ((2 ^ 53 - 1) * (2 ^ 53 - 1))
    <= position d v i * inject_Z v * (2 ^ 53 * 2 ^ 53) /\
  position d v i * inject_Z v * (2 ^ 53 * 2 ^ 53)
    <= inject_Z (i * d) * ((2 ^ 53 + 1) * (2 ^ 53 + 1)).
Proof.
  rewrite position_is_round_pos.
  destruct product_error as [P1 P2].
  destruct (round_pos_error (exact_product d v i) product_pos) as [R1 R2].
  pose proof (inject_Z_pos v Hv) as V.
  set (p := round_pos (exact_product d v i)) in *. set (y := (exact_product d v i)) in *. clearbody p y.
  set (t := inject_Z (i * d)) in *. set (c := inject_Z v) in *. clearbody t c.
  assert (A1 : 0 <= (p * 2 ^ 53 - y * (2 ^ 53 - 1)) * c) by (apply Qmult_le_0_compat; lra).
  assert (A2 : 0 <= (y * (2 ^ 53 + 1) - p * 2 ^ 53) * c) by (apply Qmult_le_0_compat; lra).
  split; lra.
Qed.

Lemma product_lt_two53 : (i * d < 2 ^ 52)%Z -> (exact_product d v i) < 2 ^ 53.
Proof.
  intros Hid. destruct product_error as [_ P2].
  pose proof (inject_Z_pos v Hv) as V.
  assert (V1 : 1 <= inject_Z v) by (rewrite <- (Zle_Qle 1); lia).
  assert (T : inject_Z (i * d) <= 2 ^ 52 - 1).
  { change (2 ^ 52 - 1) with (inject_Z (2 ^ 52 - 1)). rewrite <- Zle_Qle. lia. }
  pose proof product_pos as Yp.
  set (y := (exact_product d v i)) in *. clearbody y.
  set (t := inject_Z (i * d)) in *. set (c := inject_Z v) in *. clearbody t c.
  assert (A : 0 <= y * (c - 1)) by (apply Qmult_le_0_compat; lra).
  lra.
Qed.

Lemma position_ge_int (n : Z) :
  (exact_product d v i) < 2 ^ 53 ->
  inject_Z (n * v) * 2 ^ 53 <= inject_Z (i * d) * (2 ^ 53 - 1) ->
  inject_Z n <= position d v i.
Proof.
  intros Hid Hn. rewrite position_is_round_pos.
  apply round_pos_ge_int; [apply product_pos | exact Hid |].
  destruct product_error as [P1 _].
  pose proof (inject_Z_pos v Hv) as V. rewrite (inject_Z_mult n v) in Hn.
  apply (Qmult_le_r _ _ (inject_Z v * 2 ^ 53)); [|].
  - apply Qmult_lt_0_compat; [exact V | reflexivity].
  - set (y := (exact_product d v i)) in *. clearbody y. set (a := inject_Z n) in *.
    set (t := inject_Z (i * d)) in *. set (c := inject_Z v) in *.
    clearbody a t c. lra.
Qed.

Lemma position_le_int (n : Z) :
  (exact_product d v i) < 2 ^ 53 ->
  inject_Z (i * d) * (2 ^ 53 + 1) <= inject_Z (n * v) * 2 ^ 53 ->
  position d v i <= inject_Z n.
Proof.
  intros Hid Hn. rewrite position_is_round_pos.
  apply round_pos_le_int; [apply product_pos | exact Hid |].
  destruct product_error as [_ P2].
  pose proof (inject_Z_pos v Hv) as V. rewrite (inject_Z_mult n v) in Hn.
  apply (Qmult_le_r _ _ (inject_Z v * 2 ^ 53)); [|].
  - apply Qmult_lt_0_compat; [exact V | reflexivity].
  - set (y := (exact_product d v i)) in *. clearbody y. set (a := inject_Z n) in *.
    set (t := inject_Z (i * d)) in *. set (c := inject_Z v) in *.
    clearbody a t c. lra.
Qed.

(** Before the last index the exact product stays at or below [d]. *)
Lemma product_le_stop : (i < v)%Z -> (exact_product d v i) <= inject_Z d.
Proof.
  intros Hiv. destruct product_error as [_ P2].
  pose proof (inject_Z_pos v Hv) as V.
  assert (Z1 : (i * d * (2 ^ 53 + 1) <= d * v * 2 ^ 53)%Z).
  { assert (i * (2 ^ 53 + 1) <= v * 2 ^ 53)%Z by lia. nia. }
  rewrite Zle_Qle in Z1. rewrite !inject_Z_mult in Z1.
  change (inject_Z (2 ^ 53 + 1)) with (2 ^ 53 + 1) in Z1.
  change (inject_Z (2 ^ 53)) with (2 ^ 53) in Z1.
  rewrite inject_Z_mult in P2.
  apply (Qmult_le_r _ _ (inject_Z v * 2 ^ 53)).
  - apply Qmult_lt_0_compat; [exact V | reflexivity].
  - set (y := (exact_product d v i)) in *. clearbody y.
    set (a := inject_Z i) in *. set (b := inject_Z d) in *. set (c := inject_Z v) in *.
    clearbody a b c. lra.
Qed.
End Position.

(** ** The indices of an even sampling *)

Section Indices.
Variables d v i : Z.
Hypothesis Hv : (0 < v)%Z.
Hypothesis Hvd : (v <= d)%Z.
Hypothesis Hd : (d < 2 ^ 53)%Z.
Hypothesis Hi : (0 <= i < v)%Z.

(** Every index before the last lies within the list. *)
Lemma index_in_range : (0 <= Qfloor (position d v i) <= d)%Z.
Proof.
  destruct (Z.eq_dec i 0) as [->|Hi0].
  - rewrite position_0. cbn. lia.
  - assert (Hi' : (0 < i < 2 ^ 53)%Z) by lia.
    pose proof (product_le_stop d v i Hv Hvd Hd Hi' ltac:(lia)) as Ys.
    pose proof (inject_Z_lt_two53 d Hd) as D.
    assert (Yb : exact_product d v i < 2 ^ 53) by lra.
    split.
    + apply Z.le_trans with (Qfloor (inject_Z 0)); [rewrite Qfloor_Z; lia|].
      apply Qfloor_resp_le.
      apply (position_ge_int d v i Hv Hvd Hd Hi' 0 Yb).
      change (inject_Z (0 * v)) with 0.
      assert (T : 0 <= inject_Z (i * d)) by (rewrite <- (Zle_Qle 0); nia).
      set (t := inject_Z (i * d)) in *. clearbody t. lra.
    + apply Z.le_trans with (Qfloor (inject_Z d)); [|rewrite Qfloor_Z; lia].
      apply Qfloor_resp_le.
      rewrite (position_is_round_pos d v i Hv Hvd Hd Hi').
      apply round_pos_le_int;
        [exact (product_pos d v i Hv Hvd Hd Hi') | exact Yb | exact Ys].
Qed.

(** The index is the exact quotient [i * d / v] rounded down, except that
    where [v] divides [i * d] the two roundings may leave the product just
    below the integer, and the index is then one less. *)
Lemma index_is_floor :
  (i * d < 2 ^ 51)%Z ->
  let q := (i * d / v)%Z in
  (((i * d) mod v <> 0)%Z -> Qfloor (position d v i) = q) /\
  (Qfloor (position d v i) = q \/ Qfloor (position d v i) = (q - 1)%Z).
Proof.
  intros Hid q.
  destruct (Z.eq_dec i 0) as [->|Hi0].
  { rewrite position_0. subst q. change (0 * d)%Z with 0%Z.
    rewrite Z.div_0_l by lia. split; auto. }
  assert (Hi' : (0 < i < 2 ^ 53)%Z) by lia.
  pose proof (Z.div_mod (i * d) v ltac:(lia)) as DM.
  pose proof (Z.mod_pos_bound (i * d) v Hv) as MB.
  fold q in DM. set (r := ((i * d) mod v)%Z) in *.
  assert (Yb : exact_product d v i < 2 ^ 53).
  { apply product_lt_two53; try assumption. lia. }
  (* the position is below q + 1 *)
  assert (Up : (Qfloor (position d v i) < q + 1)%Z).
  { destruct (position_error d v i Hv Hvd Hd Hi') as [_ P2].
    pose proof (inject_Z_pos v Hv) as V.
    assert (Z1 : (i * d * ((2 ^ 53 + 1) * (2 ^ 53 + 1)) < (q + 1) * v * (2 ^ 53 * 2 ^ 53))%Z).
    { assert ((q + 1) * v >= i * d + 1)%Z by lia. nia. }
    rewrite Zlt_Qlt in Z1. rewrite !inject_Z_mult in Z1.
    change (inject_Z (2 ^ 53 + 1)) with (2 ^ 53 + 1) in Z1.
    change (inject_Z (2 ^ 53)) with (2 ^ 53) in Z1.
    rewrite inject_Z_mult in P2.
    assert (L : position d v i < inject_Z (q + 1)).
    { apply (Qmult_lt_r _ _ (inject_Z v * (2 ^ 53 * 2 ^ 53))).
      - apply Qmult_lt_0_compat; [exact V | reflexivity].
      - set (p := position d v i) in *. clearbody p.
        set (a := inject_Z i) in *. set (b := inject_Z d) in *.
        set (c := inject_Z v) in *. set (e := inject_Z (q + 1)) in *.
        clearbody a b c e. lra. }
    rewrite Zlt_Qlt. eapply Qle_lt_trans; [apply Qfloor_le | exact L]. }
  (* and at or above q - 1, or q when v does not divide i * d *)
  assert (Lo : forall n : Z,
             (n * v * 2 ^ 53 <= i * d * (2 ^ 53 - 1))%Z ->
             (n <= Qfloor (position d v i))%Z).
  { intros n Hn.
    apply Z.le_trans with (Qfloor (inject_Z n)); [rewrite Qfloor_Z; lia|].
    apply Qfloor_resp_le.
    apply (position_ge_int d v i Hv Hvd Hd Hi' n Yb).
    rewrite Zle_Qle in Hn. rewrite !inject_Z_mult in Hn. rewrite !inject_Z_mult.
    change (inject_Z (2 ^ 53 - 1)) with (2 ^ 53 - 1) in Hn.
    change (inject_Z (2 ^ 53)) with (2 ^ 53) in Hn. exact Hn. }
  split.
  - intros Hr. assert (q <= Qfloor (position d v i))%Z; [|lia].
    apply Lo. nia.
  - assert (q - 1 <= Qfloor (position d v i))%Z; [|lia].
    apply Lo. nia.
Qed.
End Indices.

Close Scope Q_scope.

Open Scope Z_scope.

(* ----------------------------------------------------------------- *)
(** ** [np.linspace] and the even sampling *)

Lemma range_succ (n : Z) : 0 <= n -> range (n + 1) = (range n ++ [n])%list.
Proof.
  intros Hn. unfold range.
  replace (Z.to_nat (n + 1)) with (S (Z.to_nat n)) by lia.
  rewrite seq_S, map_app. cbn [map Nat.add]. rewrite Z2Nat.id by exact Hn.
  reflexivity.
Qed.

Lemma range_length (n : Z) : List.length (range n) = Z.to_nat n.
Proof. unfold range. rewrite length_map, length_seq. reflexivity. Qed.

Lemma range_nth_error (n : Z) (i : nat) :
  (i < Z.to_nat n)%nat -> nth_error (range n) i = Some (Z.of_nat i).
Proof.
  intros Hi. unfold range. rewrite nth_error_map, nth_error_seq.
  destruct (Nat.ltb_spec i (Z.to_nat n)); [reflexivity | lia].
Qed.

Lemma range_In (n i : Z) : In i (range n) -> 0 <= i < n.
Proof.
  unfold range. rewrite in_map_iff. intros (k & <- & Hk).
  apply in_seq in Hk. lia.
Qed.

Lemma set_last_snoc {A : Type} (ys : list A) (y v : A) :
  set_last (ys ++ [y]) v = (ys ++ [v])%list.
Proof.
  induction ys as [|a ys IH]; [reflexivity|].
  cbn [app set_last]. rewrite IH.
  destruct ys; reflexivity.
Qed.

Lemma fadd_zero (x : Q) : fadd x (float_of_Z 0) = x.
Proof. reflexivity. Qed.

(** For two samples or more, the indices are the floors of the positions,
    and the last one is [d] itself. *)
Lemma linspace_int_indices (d v : Z) :
  0 < v -> v <= d -> d < 2 ^ 53 ->
  linspace_int 0 d (v + 1) =
  Ok (map (fun i => Qfloor (position d v i)) (range v) ++ [d])%list.
Proof.
  intros Hv Hvd Hd. unfold linspace_int.
  destruct (Z.ltb_spec (v + 1) 0) as [?|_]; [lia|].
  replace (v + 1 - 1) with v by lia.
  destruct (Z.ltb_spec 0 v) as [_|?]; [|lia].
  destruct (Z.ltb_spec 1 (v + 1)) as [_|?]; [|lia].
  rewrite Z.sub_0_r. fold (step_of d v).
  pose proof (step_ge_1 d v Hv Hvd Hd) as S1.
  destruct (Qeq_bool (step_of d v) 0) eqn:Hz.
  { apply Qeq_bool_iff in Hz. lra. }
  f_equal. rewrite range_succ by lia.
  rewrite !map_app. cbn [map]. rewrite set_last_snoc, map_app. cbn [map].
  rewrite !map_map. f_equal.
  rewrite (float_of_Z_exact d) by lia. rewrite Qfloor_Z. reflexivity.
Qed.

Lemma getitem_in_range {A : Type} (xs : list A) (i : Z) (x : A) :
  0 <= i -> nth_error xs (Z.to_nat i) = Some x -> getitem xs i = Ok x.
Proof.
  intros Hi Hx. unfold getitem.
  assert (Z.to_nat i < List.length xs)%nat.
  { apply nth_error_Some. congruence. }
  destruct (Z.ltb_spec i 0); [lia|].
  destruct (Z.ltb_spec i 0); [lia|].
  destruct (Z.leb_spec (Z.of_nat (List.length xs)) i); [lia|].
  cbn. rewrite Hx. reflexivity.
Qed.

Lemma mapM_getitem {A : Type} (xs : list A) (dflt : A) (indices : list Z) :
  (forall i, In i indices -> 0 <= i < Z.of_nat (List.length xs)) ->
  mapM (getitem xs) indices = Ok (map (fun i => nth (Z.to_nat i) xs dflt) indices).
Proof.
  induction indices as [|i rest IH]; intros Hin; [reflexivity|].
  cbn [mapM map].
  assert (Hi : 0 <= i < Z.of_nat (List.length xs)) by (apply Hin; left; reflexivity).
  rewrite (getitem_in_range xs i (nth (Z.to_nat i) xs dflt)).
  - cbn [bind]. rewrite IH; [reflexivity|]. intros j Hj. apply Hin. right. exact Hj.
  - lia.
  - apply nth_error_nth'. lia.
Qed.

(** The selection of [v + 1] files out of [d + 1], with [v < d]. *)
Lemma select_snapshots_even (network_files : list string) (d v : Z) :
  Z.of_nat (List.length network_files) = d + 1 ->
  0 < v -> v < d -> d < 2 ^ 53 ->
  select_snapshots network_files (v + 1) =
  Ok (map (fun i => nth (Z.to_nat (Qfloor (position d v i))) network_files ""%string)
          (range v)
      ++ [nth (Z.to_nat d) network_files ""%string])%list.
Proof.
  intros Hn Hv Hvd Hd. unfold select_snapshots. rewrite Hn.
  destruct (Z.ltb_spec (v + 1) (d + 1)) as [_|?]; [|lia].
  replace (d + 1 - 1) with d by lia.
  rewrite linspace_int_indices by lia. cbn [bind].
  rewrite (mapM_getitem network_files ""%string).
  - rewrite map_app, map_map. reflexivity.
  - intros i Hi. rewrite Hn. apply in_app_or in Hi. destruct Hi as [Hi|[<-|[]]]; [|lia].
    apply in_map_iff in Hi. destruct Hi as (k & <- & Hk). apply range_In in Hk.
    pose proof (index_in_range d v k Hv ltac:(lia) Hd Hk). lia.
Qed.

Lemma nth_last_index {A : Type} (xs : list A) (dflt : A) :
  nth (List.length xs - 1) xs dflt = last xs dflt.
Proof.
  induction xs as [|x xs IH]; [reflexivity|].
  destruct xs as [|y ys]; [reflexivity|].
  cbn [List.length Nat.sub] in *. rewrite Nat.sub_0_r in *.
  change (nth (S (List.length ys)) (x :: y :: ys) dflt)
    with (nth (List.length ys) (y :: ys) dflt).
  rewrite IH. reflexivity.
Qed.

(* ----------------------------------------------------------------- *)
(** ** The frame duration *)

Lemma py_int_nonneg (x : Q) : (0 <= x)%Q -> py_int x = Qfloor x.
Proof.
  intros Hx. destruct x as [a b]. unfold py_int, Qfloor. cbn [Qnum Qden].
  apply Z.quot_div_nonneg; [|reflexivity].
  unfold Qle in Hx. cbn in Hx. lia.
Qed.

(** For a positive frame rate the duration is the integer quotient: the
    rounding of [1000 / fps] to a float never reaches the next integer. *)
Lemma duration_floor (fps : Z) : 0 < fps -> duration fps = Ok (1000 / fps).
Proof.
  intros Hf. unfold duration, py_truediv.
  destruct (Z.eqb_spec fps 0) as [?|_]; [lia|]. cbn [bind]. f_equal.
  unfold fdiv. change (inject_Z 1000) with 1000%Q.
  set (X := (1000 / inject_Z fps)%Q).
  pose proof (inject_Z_pos fps Hf) as F.
  assert (EX : (X * inject_Z fps == 1000)%Q). { unfold X. field. apply Qnot_eq_sym, Qlt_not_eq, F. }
  assert (X0 : (0 < X)%Q).
  { unfold X. apply Qlt_shift_div_l; [exact F | lra]. }
  assert (F1 : (1 <= inject_Z fps)%Q) by (rewrite <- (Zle_Qle 1); lia).
  assert (X1 : (X < 2 ^ 53)%Q).
  { assert (0 <= X * (inject_Z fps - 1))%Q by (apply Qmult_le_0_compat; lra).
    assert (X <= 1000)%Q by lra.
    eapply Qle_lt_trans; [eassumption | reflexivity]. }
  rewrite (round_binary64_pos X X0).
  pose proof (Z.div_mod 1000 fps ltac:(lia)) as DM.
  pose proof (Z.mod_pos_bound 1000 fps Hf) as MB.
  set (q := 1000 / fps) in *. set (m := 1000 mod fps) in *.
  assert (Lo : (inject_Z q <= round_pos X)%Q).
  { apply round_pos_ge_int; [exact X0 | exact X1 |].
    apply (Qmult_le_r _ _ (inject_Z fps)); [exact F|].
    rewrite EX, <- inject_Z_mult. change 1000%Q with (inject_Z 1000).
    rewrite <- Zle_Qle. lia. }
  assert (Up : (round_pos X < inject_Z (q + 1))%Q).
  { destruct (round_pos_error X X0) as [_ R2].
    assert (Z1 : 1000 * (2 ^ 53 + 1) < (q + 1) * fps * 2 ^ 53) by nia.
    rewrite Zlt_Qlt in Z1. rewrite !inject_Z_mult in Z1.
    change (inject_Z (2 ^ 53 + 1)) with (2 ^ 53 + 1)%Q in Z1.
    change (inject_Z (2 ^ 53)) with (2 ^ 53)%Q in Z1.
    change (inject_Z 1000) with 1000%Q in Z1.
    apply (Qmult_lt_r _ _ (inject_Z fps * 2 ^ 53)).
    - apply Qmult_lt_0_compat; [exact F | reflexivity].
    - set (r := round_pos X) in *. clearbody r.
      set (x := X) in *. clearbody x.
      set (f := inject_Z fps) in *. set (e := inject_Z (q + 1)) in *.
      clearbody f e.
      assert (A : (0 <= (x * (2 ^ 53 + 1) - r * 2 ^ 53) * f)%Q)
        by (apply Qmult_le_0_compat; lra).
      lra. }
  assert (R0 : (0 <= round_pos X)%Q).
  { eapply Qle_trans; [|exact Lo]. rewrite <- (Zle_Qle 0).
    apply Z.div_pos; lia. }
  rewrite py_int_nonneg by exact R0.
  apply Z.le_antisymm.
  - assert (Qfloor (round_pos X) < q + 1); [|lia].
    rewrite Zlt_Qlt. eapply Qle_lt_trans; [apply Qfloor_le | exact Up].
  - apply Z.le_trans with (Qfloor (inject_Z q)); [rewrite Qfloor_Z; lia|].
    apply Qfloor_resp_le. exact Lo.
Qed.

(** At the frame rates the specification lists, truncating and rounding to
    nearest give the same duration. *)
Lemma listed_frame_rates_round :
  Forall (fun fps => duration fps = Ok (rounded_duration fps)) [1; 2; 5; 10; 30].
Proof. repeat constructor. Qed.

Lemma duration_zero : duration 0 = Raise ZeroDivisionError.
Proof. reflexivity. Qed.

(** Where the fractional part of [1000 / fps] is below one half, truncating
    and rounding to nearest agree. *)
Lemma rounded_duration_floor (fps : Z) :
  0 < fps -> 2 * (1000 mod fps) < fps -> rounded_duration fps = 1000 / fps.
Proof.
  intros Hf Hm. unfold rounded_duration, round_half_even. cbv zeta.
  rewrite <- Zdiv_Qdiv.
  pose proof (Z.div_mod 1000 fps ltac:(lia)) as DM.
  pose proof (inject_Z_pos fps Hf) as F.
  set (q := 1000 / fps) in *. set (m := 1000 mod fps) in *.
  assert (DQ : (inject_Z 1000 == inject_Z fps * inject_Z q + inject_Z m)%Q).
  { rewrite <- inject_Z_mult, <- inject_Z_plus, <- DM. reflexivity. }
  assert (MQ : (inject_Z 2 * inject_Z m < inject_Z fps)%Q).
  { rewrite <- inject_Z_mult, <- Zlt_Qlt. exact Hm. }
  assert (L : (inject_Z 1000 / inject_Z fps - inject_Z q < 1 # 2)%Q).
  { apply (Qmult_lt_r _ _ (inject_Z fps)); [exact F|].
    assert (E : ((inject_Z 1000 / inject_Z fps - inject_Z q) * inject_Z fps
                 == inject_Z 1000 - inject_Z q * inject_Z fps)%Q).
    { field. apply Qnot_eq_sym, Qlt_not_eq, F. }
    rewrite E. change (inject_Z 2) with 2%Q in MQ.
    set (a := inject_Z 1000) in *. set (b := inject_Z q) in *.
    set (c := inject_Z fps) in *. set (e := inject_Z m) in *.
    clearbody a b c e. lra. }
  assert (C : Qcompare (inject_Z 1000 / inject_Z fps - inject_Z q) (1 # 2) = Lt)
    by (apply Qlt_alt; exact L).
  rewrite C. reflexivity.
Qed.

(* ----------------------------------------------------------------- *)
(** ** Stride sampling *)

Lemma every_nth_nth_error {A : Type} (step : nat) (xs : list A) :
  (1 <= step)%nat ->
  forall skip i : nat,
    nth_error (every_nth skip step xs) i = nth_error xs (skip + i * step).
Proof.
  intros Hs. induction xs as [|x xs IH]; intros skip i.
  - cbn. destruct i, (skip + _)%nat; reflexivity.
  - destruct skip as [|k].
    + cbn [every_nth]. destruct i as [|i].
      * reflexivity.
      * cbn [nth_error]. rewrite IH.
        replace (0 + S i * step)%nat with (S (step - 1 + i * step)) by lia.
        reflexivity.
    + cbn [every_nth]. rewrite IH. reflexivity.
Qed.

Lemma length_by_nth_error {A : Type} (l : list A) (m : nat) :
  (forall i, nth_error l i = None <-> (m <= i)%nat) -> List.length l = m.
Proof.
  intros H.
  assert (H1 : (m <= List.length l)%nat).
  { apply H. apply nth_error_None. lia. }
  assert (H2 : (List.length l <= m)%nat).
  { apply nth_error_None. apply H. lia. }
  lia.
Qed.

Lemma ceil_div_spec (n s : Z) :
  0 < s -> (ceil_div n s - 1) * s < n <= ceil_div n s * s.
Proof.
  intros Hs. unfold ceil_div.
  pose proof (Z.div_mod (- n) s ltac:(lia)) as DM.
  pose proof (Z.mod_pos_bound (- n) s Hs) as MB.
  nia.
Qed.

Lemma every_nth_length {A : Type} (step : nat) (xs : list A) :
  (1 <= step)%nat ->
  Z.of_nat (List.length (every_nth 0 step xs))
  = ceil_div (Z.of_nat (List.length xs)) (Z.of_nat step).
Proof.
  intros Hs.
  pose proof (ceil_div_spec (Z.of_nat (List.length xs)) (Z.of_nat step) ltac:(lia)) as C.
  set (c := ceil_div _ _) in *.
  assert (C0 : 0 <= c) by nia.
  rewrite (length_by_nth_error (every_nth 0 step xs) (Z.to_nat c)); [lia|].
  intros i. rewrite every_nth_nth_error by exact Hs.
  rewrite nth_error_None. cbn [Nat.add]. split; intros H; nia.
Qed.

Open Scope string_scope.

(* ----------------------------------------------------------------- *)
(** ** The rendering loop *)

Section Loop.
Variable E : Env.
Variable task_name : string.

Lemma successes_frames (network_files : list string) :
  map snd (successes E task_name network_files)
  = flat_map (fun f => frame_of (rendered E task_name f)) network_files.
Proof.
  induction network_files as [|f rest IH]; [reflexivity|].
  cbn [successes flat_map]. destruct (rendered E task_name f); cbn; rewrite IH; reflexivity.
Qed.

(** The files that render, in order, each with the bitmap it gave. *)
Lemma successes_spec (network_files : list string) :
  map fst (successes E task_name network_files)
  = List.filter (renders E task_name) network_files /\
  Forall (fun p => rendered E task_name (fst p) = Some (snd p))
         (successes E task_name network_files).
Proof.
  induction network_files as [|f rest [IH1 IH2]]; [split; [reflexivity | constructor]|].
  cbn [successes List.filter]. unfold renders at 1.
  destruct (rendered E task_name f) eqn:R.
  - cbn [map fst]. rewrite IH1. split; [reflexivity|].
    constructor; [exact R | exact IH2].
  - split; assumption.
Qed.

Lemma successes_nil (network_files : list string) :
  (forall f, In f network_files -> rendered E task_name f = None) ->
  successes E task_name network_files = [].
Proof.
  induction network_files as [|f rest IH]; intros H; [reflexivity|].
  cbn [successes]. rewrite (H f) by (left; reflexivity).
  apply IH. intros g Hg. apply H. right. exact Hg.
Qed.

(** One iteration of the plain pipeline: the frame list grows by the
    bitmap of the file when it renders, and no file is written. *)
Lemma render_frame_frames (total i : nat) (f : string) (w : World E)
      (frames : list (Image E)) :
  snd (render_frame E task_name total i f (w, frames))
  = (frames ++ frame_of (rendered E task_name f))%list.
Proof.
  unfold render_frame, rendered.
  destruct (viewInd E f task_name); cbn; [|rewrite app_nil_r; reflexivity].
  destruct (rasterize E a _); cbn; [reflexivity | rewrite app_nil_r; reflexivity].
Qed.

Lemma render_frame_written (total i : nat) (f : string) (st : State E) :
  written (fst (render_frame E task_name total i f st)) = written (fst st).
Proof.
  destruct st as [w frames]. unfold render_frame.
  destruct (viewInd E f task_name); cbn;
    [|destruct (viewInd_leaks E f task_name); reflexivity].
  destruct (rasterize E a _); reflexivity.
Qed.

Lemma render_snapshot_frames (total i : nat) (f : string) (w : World E)
      (frames : list (Image E)) :
  snd (render_snapshot E task_name total i f (w, frames))
  = (frames ++ frame_of (rendered_snapshot E task_name f))%list.
Proof.
  unfold render_snapshot, rendered_snapshot.
  destruct (ind <- loadtxt E f ;; weight_matrix ind); cbn;
    [|rewrite app_nil_r; reflexivity].
  destruct (viewInd E f task_name); cbn; [|rewrite app_nil_r; reflexivity].
  destruct (rasterize E a0 _); cbn; [reflexivity | rewrite app_nil_r; reflexivity].
Qed.

Lemma render_snapshot_written (total i : nat) (f : string) (st : State E) :
  written (fst (render_snapshot E task_name total i f st)) = written (fst st).
Proof.
  destruct st as [w frames]. unfold render_snapshot.
  destruct (ind <- loadtxt E f ;; weight_matrix ind); cbn; [|reflexivity].
  destruct (viewInd E f task_name); cbn;
    [|destruct (viewInd_leaks E f task_name); reflexivity].
  destruct (rasterize E a0 _); reflexivity.
Qed.

(** The loop as a whole, for any body that behaves so. *)
Lemma for_enumerate_frames (body : nat -> string -> State E -> State E)
      (contribution : string -> list (Image E)) :
  (forall i f w frames,
      snd (body i f (w, frames)) = (frames ++ contribution f)%list) ->
  forall network_files i st,
    snd (for_enumerate E body i network_files st)
    = (snd st ++ flat_map contribution network_files)%list.
Proof.
  intros Hb. induction network_files as [|f rest IH]; intros i st.
  - cbn. rewrite app_nil_r. reflexivity.
  - cbn [for_enumerate flat_map]. rewrite IH. destruct st as [w frames].
    rewrite Hb. cbn [snd]. rewrite app_assoc. reflexivity.
Qed.

Lemma for_enumerate_written (body : nat -> string -> State E -> State E) :
  (forall i f st, written (fst (body i f st)) = written (fst st)) ->
  forall network_files i st,
    written (fst (for_enumerate E body i network_files st)) = written (fst st).
Proof.
  intros Hb. induction network_files as [|f rest IH]; intros i st; [reflexivity|].
  cbn [for_enumerate]. rewrite IH. apply Hb.
Qed.

(** The tail of both pipelines. *)
Lemma save_frames_nil (settings : bool) (output_gif : string) (fps : Z) (w : World E) :
  save_frames E settings output_gif fps (w, []) = (print NoFrames w, Ok tt).
Proof. reflexivity. Qed.

Lemma save_frames_zero_fps (settings : bool) (output_gif : string) (w : World E)
      (first : Image E) (rest : list (Image E)) :
  save_frames E settings output_gif 0 (w, first :: rest) = (w, Raise ZeroDivisionError).
Proof. reflexivity. Qed.

(** The write, when [Image.save] returns: the animation at [output_gif]
    holds the frames, the duration computed from [fps], and [loop = 0]. *)
Lemma save_frames_writes (settings : bool) (output_gif : string) (fps d : Z)
      (w : World E) (first : Image E) (rest : list (Image E)) :
  duration fps = Ok d ->
  image_save E output_gif (first :: rest) d 0 = Ok tt ->
  exists w',
    save_frames E settings output_gif fps (w, first :: rest) = (w', Ok tt) /\
    lookup output_gif (written w')
    = Some {| gif_frames := first :: rest; gif_duration := d; gif_loop := 0 |}.
Proof.
  intros Hd Hsave. unfold save_frames, save. rewrite Hd, Hsave.
  eexists. split; [reflexivity|].
  destruct settings; cbn; rewrite String.eqb_refl; reflexivity.
Qed.

Lemma lookup_filter_same (fp : string) (files : list (string * Gif E)) :
  lookup fp (List.filter (fun e => negb (String.eqb (fst e) fp)) files) = None.
Proof.
  induction files as [|[q g] files IH]; [reflexivity|].
  cbn [List.filter fst]. destruct (String.eqb_spec q fp) as [->|Hq]; cbn [negb].
  - exact IH.
  - cbn [lookup]. destruct (String.eqb_spec q fp); [contradiction | exact IH].
Qed.

(** The write, when [Image.save] raises: the exception reaches the caller,
    after the line that announces the write, and no animation is left. *)
Lemma save_frames_raises (settings : bool) (output_gif : string) (fps d : Z)
      (w : World E) (first : Image E) (rest : list (Image E)) (e : exn) :
  duration fps = Ok d ->
  image_save E output_gif (first :: rest) d 0 = Raise e ->
  snd (save_frames E settings output_gif fps (w, first :: rest)) = Raise e /\
  lookup output_gif
    (written (fst (save_frames E settings output_gif fps (w, first :: rest)))) = None /\
  console (fst (save_frames E settings output_gif fps (w, first :: rest)))
  = (console w ++ [Saving output_gif])%list.
Proof.
  intros Hd Hsave. unfold save_frames, save. rewrite Hd, Hsave. cbn.
  split; [reflexivity|]. split; [apply lookup_filter_same | reflexivity].
Qed.

(** The outcome of the tail, whatever the frame rate and the writer. *)
Lemma save_frames_outcome (settings : bool) (output_gif : string) (fps : Z)
      (w : World E) (first : Image E) (rest : list (Image E)) :
  snd (save_frames E settings output_gif fps (w, first :: rest))
  = (d <- duration fps ;; image_save E output_gif (first :: rest) d 0).
Proof.
  unfold save_frames, save. destruct (duration fps) as [d|e]; [|reflexivity].
  cbn [bind]. destruct (image_save E output_gif (first :: rest) d 0) as [[]|e];
    [destruct settings|]; reflexivity.
Qed.
End Loop.

(* ----------------------------------------------------------------- *)
(** ** The generation label *)

Ltac split_ascii_dec :=
  repeat (match goal with
          | H : context [ascii_dec ?a ?b] |- _ => destruct (ascii_dec a b)
          | |- context [ascii_dec ?a ?b] => destruct (ascii_dec a b)
          end; subst; cbn [prefix append] in *; try congruence).

(** An occurrence of [.out] cannot begin inside a name and end inside the
    extension appended to it: the dot occurs only at its start. *)
Lemma prefix_out_app (c : ascii) (r : string) :
  prefix ".out" (String c r) = false ->
  prefix ".out" (String c r ++ ".out") = false.
Proof.
  intros H. destruct r as [|c2 [|c3 [|c4 r]]]; cbn [prefix append] in *;
    split_ascii_dec.
  destruct r; discriminate H.
Qed.

Lemma replace_stem (s : string) :
  contains ".out" s = false -> replace (s ++ ".out") ".out" "" = s.
Proof.
  unfold replace. induction s as [|c r IH]; intros H; [reflexivity|].
  cbn [contains] in H. apply orb_false_iff in H. destruct H as [H1 H2].
  apply prefix_out_app in H1.
  change (String c r ++ ".out") with (String c (r ++ ".out")) in *.
  cbn [replace_from]. rewrite H1. rewrite (IH H2). reflexivity.
Qed.

Lemma has_dot_app (s : string) : has_dot (s ++ ".out") = true.
Proof.
  induction s as [|c r IH]; [reflexivity|].
  cbn [append has_dot]. rewrite IH. apply orb_true_r.
Qed.

Lemma before_last_dot_app (s : string) : before_last_dot (s ++ ".out") = s.
Proof.
  induction s as [|c r IH]; [reflexivity|].
  cbn [append before_last_dot]. rewrite has_dot_app, IH. reflexivity.
Qed.

Lemma stem_app (s : string) : only_dots s = false -> stem (s ++ ".out") = s.
Proof.
  intros H. unfold stem. rewrite before_last_dot_app, H. reflexivity.
Qed.

(* ----------------------------------------------------------------- *)
(** ** [sorted] sorts *)

Lemma insert_sorted_perm (x : string) (xs : list string) :
  Permutation (insert_sorted x xs) (x :: xs).
Proof.
  induction xs as [|y ys IH]; [apply Permutation_refl|].
  cbn [insert_sorted]. destruct (String.leb x y); [apply Permutation_refl|].
  eapply Permutation_trans; [apply perm_skip, IH | apply perm_swap].
Qed.

Lemma sorted_perm (xs : list string) : Permutation (sorted xs) xs.
Proof.
  induction xs as [|x xs IH]; [apply perm_nil|].
  cbn [sorted]. eapply Permutation_trans; [apply insert_sorted_perm|].
  apply perm_skip, IH.
Qed.

Lemma insert_sorted_HdRel (a x : string) (xs : list string) :
  le_string a x -> HdRel le_string a xs -> HdRel le_string a (insert_sorted x xs).
Proof.
  intros Hax Hxs. destruct xs as [|y ys]; cbn [insert_sorted].
  - constructor. exact Hax.
  - destruct (String.leb x y); constructor; [exact Hax|].
    inversion Hxs; assumption.
Qed.

Lemma insert_sorted_Sorted (x : string) (xs : list string) :
  Sorted le_string xs -> Sorted le_string (insert_sorted x xs).
Proof.
  induction 1 as [|y ys Hys IH Hhd]; cbn [insert_sorted].
  - repeat constructor.
  - destruct (String.leb x y) eqn:Hxy.
    + constructor; [constructor; assumption|]. constructor. exact Hxy.
    + constructor; [exact IH|].
      apply insert_sorted_HdRel; [|exact Hhd].
      destruct (String.leb_total x y) as [H|H]; [congruence | exact H].
Qed.

Lemma sorted_Sorted (xs : list string) : Sorted le_string (sorted xs).
Proof.
  induction xs as [|x xs IH]; [constructor|].
  cbn [sorted]. apply insert_sorted_Sorted, IH.
Qed.

(** Discovery finds no file exactly when [glob] matches none. *)
Lemma sorted_nil_iff (xs : list string) : sorted xs = [] <-> xs = [].
Proof.
  split; intros H.
  - apply Permutation_nil. rewrite <- H. apply sorted_perm.
  - subst xs. reflexivity.
Qed.

(* ----------------------------------------------------------------- *)
(** ** The model of binary64 against the machine's floats

    The rational model and Rocq's primitive floats give the same quotients,
    the same products and the same [np.linspace] indices on the ranges
    below, which include the frame rates and the directory sizes of the
    specification's scenarios. *)

Lemma binary64_quotients_agree :
  forallb (fun a => forallb (agrees_div a) (upto 40)) (upto 40) = true.
Proof. vm_compute. reflexivity. Qed.

Lemma binary64_durations_agree : forallb (agrees_div 1000) (upto 1200) = true.
Proof. vm_compute. reflexivity. Qed.

Lemma binary64_products_agree :
  forallb (fun a => forallb (fun b => forallb (fun i => agrees_mul i a b) (upto 8))
                      (upto 16)) (upto 16) = true.
Proof. vm_compute. reflexivity. Qed.

Lemma linspace_agrees :
  forallb (fun n => forallb (agrees_linspace n) (upto (Z.to_nat n))) (upto 32) = true.
Proof. vm_compute. reflexivity. Qed.

(* ----------------------------------------------------------------- *)
(** ** Figures across iterations *)

Lemma close_fresh_figure (figures : list nat) :
  List.filter (fun f => negb (Nat.eqb f (fresh_figure figures)))
              (figures ++ [fresh_figure figures])
  = figures.
Proof.
  unfold fresh_figure. rewrite filter_app. cbn. rewrite Nat.eqb_refl. cbn.
  rewrite app_nil_r.
  assert (H : Forall (fun g => (g <= list_max figures)%nat) figures)
    by (apply list_max_le; lia).
  set (m := list_max figures) in *. clearbody m.
  induction H as [|g gs Hg _ IH]; [reflexivity|].
  cbn. destruct (Nat.eqb_spec g (S m)); [lia|]. cbn. rewrite IH. reflexivity.
Qed.

(** An iteration that raises after its figure has been created leaves the
    figure open: the handler of line 77 does not close it. *)
Lemma render_frame_leaks (E : Env) (task_name : string) (total i : nat)
      (f : string) (w : World E) (frames : list (Image E)) :
  leaks E task_name f = true ->
  open_figures (fst (render_frame E task_name total i f (w, frames)))
  = (open_figures w ++ [fresh_figure (open_figures w)])%list.
Proof.
  unfold leaks, render_frame. destruct (viewInd E f task_name).
  - cbn. destruct (rasterize E a _); [discriminate | reflexivity].
  - intros ->. reflexivity.
Qed.

(** An iteration that renders closes its figure, line 75. *)
Lemma render_frame_releases (E : Env) (task_name : string) (total i : nat)
      (f : string) (w : World E) (frames : list (Image E)) :
  renders E task_name f = true ->
  open_figures (fst (render_frame E task_name total i f (w, frames)))
  = open_figures w.
Proof.
  unfold renders, rendered, render_frame.
  destruct (viewInd E f task_name); [|discriminate].
  cbn. destruct (rasterize E a _); [|discriminate]. intros _. cbn.
  apply close_fresh_figure.
Qed.

(** C7: the code does not release the figure on the exception path.  With
    three snapshots of which the second fails in the rasterisation, after
    [viewInd] has created its figure, the run ends with that figure, number
    1, still open, in the plain and in the comparison pipeline alike. *)
Theorem C7_figure_stays_open_when_rasterising_fails :
  let E := example_env three_generations nowhere (String.eqb "log/gen2.out") in
  open_figures
    (fst (visualize_network_evolution E "log" "evolution.gif" "slimevolley" 2 1
            (empty_world E))) = [1%nat] /\
  open_figures
    (fst (create_comparison_gif E "log" "comparison.gif" "slimevolley" 2 10
            (empty_world E))) = [1%nat].
Proof. split; vm_compute; reflexivity. Qed.

(* ----------------------------------------------------------------- *)
(** ** The edges of the even sampling *)

Lemma select_snapshots_one (network_files : list string) (first : string)
      (rest : list string) :
  network_files = first :: rest -> rest <> [] ->
  select_snapshots network_files 1 = Ok [first].
Proof.
  intros -> Hr. unfold select_snapshots.
  destruct rest as [|second rest]; [contradiction|].
  destruct (Z.ltb_spec 1 (Z.of_nat (List.length (first :: second :: rest))));
    [|cbn [List.length] in *; lia].
  reflexivity.
Qed.

Lemma select_snapshots_zero (network_files : list string) :
  network_files <> [] -> select_snapshots network_files 0 = Ok [].
Proof.
  intros Hne. unfold select_snapshots.
  destruct network_files as [|f rest]; [contradiction|].
  destruct (Z.ltb_spec 0 (Z.of_nat (List.length (f :: rest))));
    [|cbn [List.length] in *; lia].
  reflexivity.
Qed.


(* ----------------------------------------------------------------- *)
(** ** The plain pipeline *)

Lemma every_nth_one {A : Type} (xs : list A) : every_nth 0 1 xs = xs.
Proof. induction xs as [|x xs IH]; [reflexivity|]. cbn. f_equal. exact IH. Qed.

Lemma slice_step_nil {A : Type} (step : Z) (selected : list A) :
  slice_step [] step = Ok selected -> selected = [].
Proof. destruct step; cbn; congruence. Qed.

Lemma flat_map_frames_none {A B : Type} (r : A -> option B) (l : list A) :
  flat_map (fun f => frame_of (r f)) l = []
  <-> List.filter (fun f => match r f with Some _ => true | None => false end) l = [].
Proof.
  induction l as [|x l IH]; [split; reflexivity|].
  cbn. destruct (r x); cbn; [split; discriminate | exact IH].
Qed.

Lemma flat_map_frames_Forall2 {A B : Type} (r : A -> option B) (l : list A) :
  Forall2 (fun f img => r f = Some img)
          (List.filter (fun f => match r f with Some _ => true | None => false end) l)
          (flat_map (fun f => frame_of (r f)) l).
Proof.
  induction l as [|x l IH]; [constructor|].
  cbn. destruct (r x) eqn:R; cbn; [constructor; assumption | exact IH].
Qed.

Lemma duration_raises (fps : Z) (e : exn) :
  duration fps = Raise e <-> fps = 0 /\ e = ZeroDivisionError.
Proof.
  unfold duration, py_truediv. destruct (Z.eqb_spec fps 0) as [->|Hf]; cbn [bind].
  - split; [intros H; inversion H; split; reflexivity | intros [_ ->]; reflexivity].
  - split; [discriminate | intros [? _]; contradiction].
Qed.

(** After discovery and sampling, the plain pipeline is the loop over the
    selected files followed by the write. *)
Lemma visualize_network_evolution_selected
      (E : Env) (w : World E) (networks_dir output_gif task_name : string)
      (fps sample_every : Z) (selected : list string) :
  sorted (glob E (os_path_join networks_dir "*.out")) <> [] ->
  slice_step (sorted (glob E (os_path_join networks_dir "*.out"))) sample_every
  = Ok selected ->
  visualize_network_evolution E networks_dir output_gif task_name fps sample_every w
  = save_frames E true output_gif fps
      (for_enumerate E (render_frame E task_name (List.length selected)) 0 selected
         (print (CreatingGif (List.length selected))
            (print (FoundFiles (List.length selected)) w), [])).
Proof.
  intros Hne Hs. unfold visualize_network_evolution.
  destruct (sorted (glob E (os_path_join networks_dir "*.out"))) as [|f rest];
    [contradiction|].
  rewrite Hs. reflexivity.
Qed.

Lemma plain_loop_frames (E : Env) (task_name : string) (total : nat)
      (selected : list string) (w : World E) :
  snd (for_enumerate E (render_frame E task_name total) 0 selected (w, []))
  = map snd (successes E task_name selected).
Proof.
  rewrite (for_enumerate_frames E (render_frame E task_name total)
             (fun f => frame_of (rendered E task_name f))).
  - cbn [snd app]. symmetry. apply successes_frames.
  - intros. apply render_frame_frames.
Qed.

Lemma plain_loop_written (E : Env) (task_name : string) (total : nat)
      (selected : list string) (st : State E) :
  written (fst (for_enumerate E (render_frame E task_name total) 0 selected st))
  = written (fst st).
Proof. apply for_enumerate_written. intros. apply render_frame_written. Qed.

Lemma plain_loop_rendered (E : Env) (task_name : string) (total : nat)
      (selected : list string) (w : World E) :
  snd (for_enumerate E (render_frame E task_name total) 0 selected (w, []))
  = rendered_frames E task_name selected.
Proof. rewrite plain_loop_frames. apply successes_frames. Qed.

Lemma rendered_frames_none_iff (E : Env) (task_name : string) (selected : list string) :
  rendered_frames E task_name selected = []
  <-> List.filter (renders E task_name) selected = [].
Proof. apply (flat_map_frames_none (rendered E task_name)). Qed.


(** What the plain pipeline writes when at least one frame was rendered,
    the duration is defined and [Image.save] returns. *)
Lemma plain_run_writes
      (E : Env) (w : World E) (networks_dir output_gif task_name : string)
      (fps sample_every d : Z) (selected : list string) :
  slice_step (sorted (glob E (os_path_join networks_dir "*.out"))) sample_every
  = Ok selected ->
  rendered_frames E task_name selected <> [] ->
  duration fps = Ok d ->
  image_save E output_gif (rendered_frames E task_name selected) d 0 = Ok tt ->
  exists w' : World E,
    visualize_network_evolution E networks_dir output_gif task_name fps sample_every w
    = (w', Ok tt) /\
    lookup output_gif (written w')
    = Some {| gif_frames := rendered_frames E task_name selected;
              gif_duration := d; gif_loop := 0 |}.
Proof.
  intros Hs Hok Hd Hsave.
  assert (Hne : sorted (glob E (os_path_join networks_dir "*.out")) <> []).
  { intros Hnil. rewrite Hnil in Hs. apply slice_step_nil in Hs. subst selected.
    apply Hok. reflexivity. }
  rewrite (visualize_network_evolution_selected E w _ _ _ _ _ selected Hne Hs).
  set (w0 := print (CreatingGif _) _).
  destruct (for_enumerate E (render_frame E task_name (List.length selected)) 0
              selected (w0, [])) as [w1 frames] eqn:Hloop.
  assert (Hf : frames = rendered_frames E task_name selected).
  { change frames with (snd (w1, frames)). rewrite <- Hloop. apply plain_loop_rendered. }
  rewrite <- Hf in *. destruct frames as [|first rest]; [contradiction|].
  apply save_frames_writes; assumption.
Qed.

(** C1: of the files the run selects, exactly those that render give the
    frames of the output animation, one frame each and in the order of the
    files; a file that fails to render is left out, and the run goes on to
    the write whatever failed.  The write itself is Pillow's and may raise:
    the statement is for a frame rate from which the duration can be
    computed and for a call of [Image.save] that returns. *)
Theorem C1_frames_are_the_successful_renders
        (E : Env) (w : World E) (networks_dir output_gif task_name : string)
        (fps sample_every d : Z) (selected : list string) :
  slice_step (sorted (glob E (os_path_join networks_dir "*.out"))) sample_every
  = Ok selected ->
  List.filter (renders E task_name) selected <> [] ->
  duration fps = Ok d ->
  image_save E output_gif (rendered_frames E task_name selected) d 0 = Ok tt ->
  exists (w' : World E) (frames : list (Image E)),
    visualize_network_evolution E networks_dir output_gif task_name fps sample_every w
    = (w', Ok tt) /\
    lookup output_gif (written w')
    = Some {| gif_frames := frames; gif_duration := d; gif_loop := 0 |} /\
    List.length frames = List.length (List.filter (renders E task_name) selected) /\
    Forall2 (fun f img => rendered E task_name f = Some img)
            (List.filter (renders E task_name) selected) frames.
Proof.
  intros Hs Hok Hd Hsave.
  assert (Hfr : rendered_frames E task_name selected <> []).
  { intros Hnil. apply Hok. apply rendered_frames_none_iff. exact Hnil. }
  destruct (plain_run_writes E w networks_dir output_gif task_name fps sample_every d
              selected Hs Hfr Hd Hsave) as (w' & R1 & R2).
  pose proof (flat_map_frames_Forall2 (rendered E task_name) selected) as HF.
  exists w', (rendered_frames E task_name selected).
  split; [exact R1|]. split; [exact R2|]. split.
  - symmetry. apply (Forall2_length HF).
  - exact HF.
Qed.

(** C6: when no snapshot file is found, or when the loop runs and every
    file it tries fails to render, the plain pipeline returns normally and
    writes no file. *)
Theorem C6_no_files_or_no_frames_returns_normally
        (E : Env) (w : World E) (networks_dir output_gif task_name : string)
        (fps sample_every : Z) :
  sorted (glob E (os_path_join networks_dir "*.out")) = [] \/
  (exists selected : list string,
      slice_step (sorted (glob E (os_path_join networks_dir "*.out"))) sample_every
      = Ok selected /\
      forall f, In f selected -> rendered E task_name f = None) ->
  exists w' : World E,
    visualize_network_evolution E networks_dir output_gif task_name fps sample_every w
    = (w', Ok tt) /\
    written w' = written w.
Proof.
  intros [Hnil | (selected & Hs & Hfail)].
  - unfold visualize_network_evolution. rewrite Hnil.
    eexists. split; reflexivity.
  - destruct (sorted (glob E (os_path_join networks_dir "*.out"))) as [|f0 rest] eqn:Hfiles.
    { unfold visualize_network_evolution. rewrite Hfiles. eexists. split; reflexivity. }
    assert (Hne : sorted (glob E (os_path_join networks_dir "*.out")) <> [])
      by (rewrite Hfiles; discriminate).
    rewrite <- Hfiles in Hs.
    rewrite (visualize_network_evolution_selected E w _ _ _ _ _ selected Hne Hs).
    set (w0 := print (CreatingGif _) _).
    destruct (for_enumerate E (render_frame E task_name (List.length selected)) 0
                selected (w0, [])) as [w1 frames] eqn:Hloop.
    assert (Hf : frames = []).
    { change frames with (snd (w1, frames)). rewrite <- Hloop, plain_loop_frames.
      rewrite (successes_nil E task_name selected Hfail). reflexivity. }
    assert (Hw : written w1 = written w).
    { change w1 with (fst (w1, frames)). rewrite <- Hloop, plain_loop_written.
      reflexivity. }
    subst frames. rewrite save_frames_nil. eexists. split; [reflexivity | exact Hw].
Qed.

(** C10: with [fps = 0] and at least one file rendered, the plain pipeline
    runs the whole loop and then raises [ZeroDivisionError] out of the
    duration computation; the world it leaves is the one after the loop, in
    which no file has been written.  The same holds of the tail both
    pipelines share. *)
Theorem C10_zero_fps_raises_after_rendering
        (E : Env) (w : World E) (networks_dir output_gif task_name : string)
        (sample_every : Z) (selected : list string) :
  slice_step (sorted (glob E (os_path_join networks_dir "*.out"))) sample_every
  = Ok selected ->
  List.filter (renders E task_name) selected <> [] ->
  let after :=
    for_enumerate E (render_frame E task_name (List.length selected)) 0 selected
      (print (CreatingGif (List.length selected))
         (print (FoundFiles (List.length selected)) w), []) in
  visualize_network_evolution E networks_dir output_gif task_name 0 sample_every w
  = (fst after, Raise ZeroDivisionError) /\
  snd after <> [] /\
  written (fst after) = written w /\
  forall settings out w1 first rest,
    save_frames E settings out 0 (w1, first :: rest) = (w1, Raise ZeroDivisionError).
Proof.
  intros Hs Hok after.
  destruct (successes_spec E task_name selected) as [S1 _].
  assert (Hne : sorted (glob E (os_path_join networks_dir "*.out")) <> []).
  { intros Hnil. rewrite Hnil in Hs. apply slice_step_nil in Hs. subst selected.
    apply Hok. reflexivity. }
  rewrite (visualize_network_evolution_selected E w _ _ _ _ _ selected Hne Hs).
  fold after.
  assert (Hf : snd after = map snd (successes E task_name selected))
    by apply plain_loop_frames.
  assert (Hfr : snd after <> []).
  { rewrite Hf. intros Hnil. apply Hok. rewrite <- S1.
    destruct (successes E task_name selected); [reflexivity | discriminate Hnil]. }
  repeat split.
  - destruct after as [w1 [|first rest]]; [contradiction Hfr; reflexivity|].
    reflexivity.
  - exact Hfr.
  - unfold after. rewrite plain_loop_written. reflexivity.
Qed.

(** C4: for a non-empty sorted list of [N] snapshot files and a stride
    [S >= 1], the slice [network_files[::S]] keeps [ceil(N / S)] files, and
    the file it keeps at position [i] is the one at position [i * S] of the
    sorted list. *)
Theorem C4_stride_sampling
        (E : Env) (networks_dir : string) (S : Z) :
  let network_files := sorted (glob E (os_path_join networks_dir "*.out")) in
  network_files <> [] ->
  1 <= S ->
  exists selected : list string,
    slice_step network_files S = Ok selected /\
    Z.of_nat (List.length selected)
    = ceil_div (Z.of_nat (List.length network_files)) S /\
    forall i : nat,
      (i < List.length selected)%nat ->
      nth_error selected i = nth_error network_files (i * Z.to_nat S).
Proof.
  intros network_files Hne HS.
  destruct S as [|p|p]; try lia.
  exists (every_nth 0 (Pos.to_nat p) network_files).
  assert (Hp : (1 <= Pos.to_nat p)%nat) by lia.
  split; [reflexivity|]. split.
  - rewrite (every_nth_length (Pos.to_nat p) network_files Hp).
    rewrite positive_nat_Z. reflexivity.
  - intros i _. rewrite (every_nth_nth_error (Pos.to_nat p) network_files Hp 0 i).
    rewrite Z2Nat.inj_pos. reflexivity.
Qed.

(* ----------------------------------------------------------------- *)
(** ** The comparison pipeline *)

(** After discovery and sampling, the comparison pipeline is the loop over
    the selected files followed by the write. *)
Lemma create_comparison_gif_selected
      (E : Env) (w : World E) (networks_dir output_gif task_name : string)
      (fps num_snapshots : Z) (selected : list string) :
  sorted (glob E (os_path_join networks_dir "*.out")) <> [] ->
  select_snapshots (sorted (glob E (os_path_join networks_dir "*.out"))) num_snapshots
  = Ok selected ->
  create_comparison_gif E networks_dir output_gif task_name fps num_snapshots w
  = save_frames E false output_gif fps
      (for_enumerate E (render_snapshot E task_name (List.length selected)) 0 selected
         (print (CreatingComparison (List.length selected)) w, [])).
Proof.
  intros Hne Hs. unfold create_comparison_gif.
  destruct (sorted (glob E (os_path_join networks_dir "*.out"))) as [|f rest];
    [contradiction|].
  rewrite Hs. reflexivity.
Qed.

Lemma comparison_loop_frames (E : Env) (task_name : string) (total : nat)
      (selected : list string) (w : World E) :
  snd (for_enumerate E (render_snapshot E task_name total) 0 selected (w, []))
  = flat_map (fun f => frame_of (rendered_snapshot E task_name f)) selected.
Proof.
  rewrite (for_enumerate_frames E (render_snapshot E task_name total)
             (fun f => frame_of (rendered_snapshot E task_name f))).
  - reflexivity.
  - intros. apply render_snapshot_frames.
Qed.

Lemma comparison_loop_written (E : Env) (task_name : string) (total : nat)
      (selected : list string) (st : State E) :
  written (fst (for_enumerate E (render_snapshot E task_name total) 0 selected st))
  = written (fst st).
Proof. apply for_enumerate_written. intros. apply render_snapshot_written. Qed.

(** The comparison pipeline, too, returns normally and writes nothing when
    it finds no file or when every file it tries fails. *)
Lemma comparison_no_files_or_no_frames
      (E : Env) (w : World E) (networks_dir output_gif task_name : string)
      (fps num_snapshots : Z) :
  sorted (glob E (os_path_join networks_dir "*.out")) = [] \/
  (exists selected : list string,
      select_snapshots (sorted (glob E (os_path_join networks_dir "*.out")))
        num_snapshots = Ok selected /\
      forall f, In f selected -> rendered_snapshot E task_name f = None) ->
  exists w' : World E,
    create_comparison_gif E networks_dir output_gif task_name fps num_snapshots w
    = (w', Ok tt) /\
    written w' = written w.
Proof.
  intros [Hnil | (selected & Hs & Hfail)].
  - unfold create_comparison_gif. rewrite Hnil. eexists. split; reflexivity.
  - destruct (sorted (glob E (os_path_join networks_dir "*.out"))) as [|f0 rest] eqn:Hfiles.
    { unfold create_comparison_gif. rewrite Hfiles. eexists. split; reflexivity. }
    assert (Hne : sorted (glob E (os_path_join networks_dir "*.out")) <> [])
      by (rewrite Hfiles; discriminate).
    rewrite <- Hfiles in Hs.
    rewrite (create_comparison_gif_selected E w _ _ _ _ _ selected Hne Hs).
    set (w0 := print (CreatingComparison _) _).
    destruct (for_enumerate E (render_snapshot E task_name (List.length selected)) 0
                selected (w0, [])) as [w1 frames] eqn:Hloop.
    assert (Hf : frames = []).
    { change frames with (snd (w1, frames)). rewrite <- Hloop, comparison_loop_frames.
      clear Hloop Hs. induction selected as [|f fs IH]; [reflexivity|].
      cbn [flat_map]. rewrite (Hfail f) by (left; reflexivity). cbn [frame_of app].
      apply IH. intros g Hg. apply Hfail. right. exact Hg. }
    assert (Hw : written w1 = written w).
    { change w1 with (fst (w1, frames)). rewrite <- Hloop, comparison_loop_written.
      reflexivity. }
    subst frames. rewrite save_frames_nil. eexists. split; [reflexivity | exact Hw].
Qed.

(** And with [fps = 0] and a frame rendered it raises after its loop. *)
Lemma comparison_zero_fps_raises
      (E : Env) (w : World E) (networks_dir output_gif task_name : string)
      (num_snapshots : Z) (selected : list string) :
  sorted (glob E (os_path_join networks_dir "*.out")) <> [] ->
  select_snapshots (sorted (glob E (os_path_join networks_dir "*.out"))) num_snapshots
  = Ok selected ->
  flat_map (fun f => frame_of (rendered_snapshot E task_name f)) selected <> [] ->
  exists w' : World E,
    create_comparison_gif E networks_dir output_gif task_name 0 num_snapshots w
    = (w', Raise ZeroDivisionError) /\
    written w' = written w.
Proof.
  intros Hne Hs Hok.
  rewrite (create_comparison_gif_selected E w _ _ _ _ _ selected Hne Hs).
  set (w0 := print (CreatingComparison _) _).
  destruct (for_enumerate E (render_snapshot E task_name (List.length selected)) 0
              selected (w0, [])) as [w1 frames] eqn:Hloop.
  assert (Hf : frames
               = flat_map (fun f => frame_of (rendered_snapshot E task_name f)) selected).
  { change frames with (snd (w1, frames)). rewrite <- Hloop.
    apply comparison_loop_frames. }
  assert (Hw : written w1 = written w).
  { change w1 with (fst (w1, frames)). rewrite <- Hloop, comparison_loop_written.
    reflexivity. }
  destruct frames as [|first rest]; [exfalso; apply Hok; rewrite <- Hf; reflexivity|].
  exists w1. split; [reflexivity | exact Hw].
Qed.

Lemma rendered_snapshots_none_iff (E : Env) (task_name : string)
      (selected : list string) :
  rendered_snapshots E task_name selected = []
  <-> List.filter (renders_snapshot E task_name) selected = [].
Proof. apply (flat_map_frames_none (rendered_snapshot E task_name)). Qed.

Lemma select_snapshots_nil (num_snapshots : Z) (selected : list string) :
  select_snapshots [] num_snapshots = Ok selected -> selected = [].
Proof.
  unfold select_snapshots.
  destruct (Z.ltb_spec num_snapshots (Z.of_nat (List.length (@nil string)))) as [Hlt|_].
  - unfold linspace_int.
    destruct (Z.ltb_spec num_snapshots 0); [discriminate | cbn in Hlt; lia].
  - intros H. inversion H. reflexivity.
Qed.

(** What the comparison pipeline returns once the snapshots are selected. *)
Lemma comparison_run_outcome
      (E : Env) (w : World E) (networks_dir output_gif task_name : string)
      (fps num_snapshots : Z) (selected : list string) :
  sorted (glob E (os_path_join networks_dir "*.out")) <> [] ->
  select_snapshots (sorted (glob E (os_path_join networks_dir "*.out"))) num_snapshots
  = Ok selected ->
  snd (create_comparison_gif E networks_dir output_gif task_name fps num_snapshots w)
  = match rendered_snapshots E task_name selected with
    | [] => Ok tt
    | _ :: _ =>
        d <- duration fps ;;
        image_save E output_gif (rendered_snapshots E task_name selected) d 0
    end.
Proof.
  intros Hne Hs.
  rewrite (create_comparison_gif_selected E w _ _ _ _ _ selected Hne Hs).
  set (w0 := print (CreatingComparison _) _).
  destruct (for_enumerate E (render_snapshot E task_name (List.length selected)) 0
              selected (w0, [])) as [w1 frames] eqn:Hloop.
  assert (Hf : frames = rendered_snapshots E task_name selected).
  { change frames with (snd (w1, frames)). rewrite <- Hloop.
    apply comparison_loop_frames. }
  rewrite <- Hf. destruct frames as [|first rest]; [reflexivity|].
  apply save_frames_outcome.
Qed.

(** What the comparison pipeline writes when at least one snapshot was
    rendered, the duration is defined and [Image.save] returns. *)
Lemma comparison_run_writes
      (E : Env) (w : World E) (networks_dir output_gif task_name : string)
      (fps num_snapshots d : Z) (selected : list string) :
  select_snapshots (sorted (glob E (os_path_join networks_dir "*.out"))) num_snapshots
  = Ok selected ->
  rendered_snapshots E task_name selected <> [] ->
  duration fps = Ok d ->
  image_save E output_gif (rendered_snapshots E task_name selected) d 0 = Ok tt ->
  exists w' : World E,
    create_comparison_gif E networks_dir output_gif task_name fps num_snapshots w
    = (w', Ok tt) /\
    lookup output_gif (written w')
    = Some {| gif_frames := rendered_snapshots E task_name selected;
              gif_duration := d; gif_loop := 0 |}.
Proof.
  intros Hs Hok Hd Hsave.
  assert (Hne : sorted (glob E (os_path_join networks_dir "*.out")) <> []).
  { intros Hnil. rewrite Hnil in Hs. apply select_snapshots_nil in Hs. subst selected.
    apply Hok. reflexivity. }
  rewrite (create_comparison_gif_selected E w _ _ _ _ _ selected Hne Hs).
  set (w0 := print (CreatingComparison _) _).
  destruct (for_enumerate E (render_snapshot E task_name (List.length selected)) 0
              selected (w0, [])) as [w1 frames] eqn:Hloop.
  assert (Hf : frames = rendered_snapshots E task_name selected).
  { change frames with (snd (w1, frames)). rewrite <- Hloop.
    apply comparison_loop_frames. }
  rewrite <- Hf in *. destruct frames as [|first rest]; [contradiction|].
  apply save_frames_writes; assumption.
Qed.

(* ----------------------------------------------------------------- *)
(** ** What the loops print *)

Lemma logged_errors_app (l1 l2 : list message) :
  logged_errors (l1 ++ l2) = (logged_errors l1 ++ logged_errors l2)%list.
Proof. apply flat_map_app. Qed.

Lemma progress_app (l1 l2 : list message) :
  progress (l1 ++ l2) = (progress l1 ++ progress l2)%list.
Proof. apply flat_map_app. Qed.

Ltac console_lines :=
  cbn; rewrite ?logged_errors_app, ?progress_app; cbn; rewrite ?app_nil_r;
  split; reflexivity.

Lemma render_frame_console (E : Env) (task_name : string) (total i : nat)
      (f : string) (w : World E) (frames : list (Image E)) :
  let w' := fst (render_frame E task_name total i f (w, frames)) in
  logged_errors (console w')
  = (logged_errors (console w)
     ++ (if renders E task_name f then [] else [f]))%list /\
  progress (console w') = (progress (console w) ++ [((i + 1)%nat, total)])%list.
Proof.
  unfold renders, rendered, render_frame.
  destruct (viewInd E f task_name) as [drawing|e]; cbn.
  - destruct (rasterize E drawing _) as [img|e]; console_lines.
  - destruct (viewInd_leaks E f task_name); console_lines.
Qed.

Lemma plain_loop_console (E : Env) (task_name : string) (total : nat)
      (selected : list string) :
  forall (i : nat) (w : World E) (frames : list (Image E)),
    let w' := fst (for_enumerate E (render_frame E task_name total) i selected
                     (w, frames)) in
    logged_errors (console w')
    = (logged_errors (console w)
       ++ List.filter (fun f => negb (renders E task_name f)) selected)%list /\
    progress (console w')
    = (progress (console w)
       ++ map (fun k => (k, total)) (seq (i + 1) (List.length selected)))%list.
Proof.
  induction selected as [|f rest IH]; intros i w frames.
  - cbn. rewrite !app_nil_r. split; reflexivity.
  - cbn [for_enumerate].
    destruct (render_frame E task_name total i f (w, frames)) as [w1 frames1] eqn:Hstep.
    destruct (render_frame_console E task_name total i f w frames) as [H1 H2].
    rewrite Hstep in H1, H2. cbn [fst] in H1, H2.
    destruct (IH (S i) w1 frames1) as [L1 L2]. cbn zeta in *.
    rewrite L1, L2, H1, H2. cbn [List.filter List.length seq map].
    replace (S i + 1)%nat with (S (i + 1)) by lia.
    rewrite <- !app_assoc. split.
    + destruct (renders E task_name f); reflexivity.
    + reflexivity.
Qed.

Lemma render_snapshot_console (E : Env) (task_name : string) (total i : nat)
      (f : string) (w : World E) (frames : list (Image E)) :
  let w' := fst (render_snapshot E task_name total i f (w, frames)) in
  logged_errors (console w')
  = (logged_errors (console w)
     ++ (if renders_snapshot E task_name f then [] else [f]))%list /\
  progress (console w') = (progress (console w) ++ [((i + 1)%nat, total)])%list.
Proof.
  unfold renders_snapshot, rendered_snapshot, render_snapshot.
  destruct (ind <- loadtxt E f ;; weight_matrix ind) as [wMat|e]; [|console_lines].
  destruct (viewInd E f task_name) as [drawing|e]; cbn.
  - destruct (rasterize E drawing _) as [img|e]; console_lines.
  - destruct (viewInd_leaks E f task_name); console_lines.
Qed.

Lemma comparison_loop_console (E : Env) (task_name : string) (total : nat)
      (selected : list string) :
  forall (i : nat) (w : World E) (frames : list (Image E)),
    let w' := fst (for_enumerate E (render_snapshot E task_name total) i selected
                     (w, frames)) in
    logged_errors (console w')
    = (logged_errors (console w)
       ++ List.filter (fun f => negb (renders_snapshot E task_name f)) selected)%list /\
    progress (console w')
    = (progress (console w)
       ++ map (fun k => (k, total)) (seq (i + 1) (List.length selected)))%list.
Proof.
  induction selected as [|f rest IH]; intros i w frames.
  - cbn. rewrite !app_nil_r. split; reflexivity.
  - cbn [for_enumerate].
    destruct (render_snapshot E task_name total i f (w, frames))
      as [w1 frames1] eqn:Hstep.
    destruct (render_snapshot_console E task_name total i f w frames) as [H1 H2].
    rewrite Hstep in H1, H2. cbn [fst] in H1, H2.
    destruct (IH (S i) w1 frames1) as [L1 L2]. cbn zeta in *.
    rewrite L1, L2, H1, H2. cbn [List.filter List.length seq map].
    replace (S i + 1)%nat with (S (i + 1)) by lia.
    rewrite <- !app_assoc. split.
    + destruct (renders_snapshot E task_name f); reflexivity.
    + reflexivity.
Qed.

(** The tail prints no progress line and no error line, whether it writes,
    raises or finds no frame. *)
Lemma save_frames_console (E : Env) (settings : bool) (output_gif : string) (fps : Z)
      (st : State E) :
  logged_errors (console (fst (save_frames E settings output_gif fps st)))
  = logged_errors (console (fst st)) /\
  progress (console (fst (save_frames E settings output_gif fps st)))
  = progress (console (fst st)).
Proof.
  destruct st as [w [|first rest]]; [console_lines|].
  unfold save_frames, save. destruct (duration fps) as [d|e]; [|split; reflexivity].
  destruct (image_save E output_gif (first :: rest) d 0) as [[]|e];
    [destruct settings|]; console_lines.
Qed.

(** The progress lines of a run of the comparison pipeline. *)
Lemma comparison_run_console
      (E : Env) (w : World E) (networks_dir output_gif task_name : string)
      (fps num_snapshots : Z) (selected : list string) :
  sorted (glob E (os_path_join networks_dir "*.out")) <> [] ->
  select_snapshots (sorted (glob E (os_path_join networks_dir "*.out"))) num_snapshots
  = Ok selected ->
  let w' := fst (create_comparison_gif E networks_dir output_gif task_name fps
                   num_snapshots w) in
  logged_errors (console w')
  = (logged_errors (console w)
     ++ List.filter (fun f => negb (renders_snapshot E task_name f)) selected)%list /\
  progress (console w')
  = (progress (console w)
     ++ map (fun k => (k, List.length selected)) (seq 1 (List.length selected)))%list.
Proof.
  intros Hne Hs.
  rewrite (create_comparison_gif_selected E w _ _ _ _ _ selected Hne Hs).
  cbn zeta.
  destruct (save_frames_console E false output_gif fps
              (for_enumerate E (render_snapshot E task_name (List.length selected)) 0
                 selected (print (CreatingComparison (List.length selected)) w, [])))
    as [-> ->].
  destruct (comparison_loop_console E task_name (List.length selected) selected 0
              (print (CreatingComparison (List.length selected)) w) []) as [L1 L2].
  cbn zeta in L1, L2. rewrite L1, L2. cbn [print console].
  rewrite !logged_errors_app, !progress_app. cbn. rewrite !app_nil_r.
  split; reflexivity.
Qed.

(** C9: when at least as many snapshots are requested as there are files,
    the comparison pipeline samples nothing.  The selection is the whole
    sorted list; the loop goes through all [N] files, one progress line
    each, numbered [1/N] to [N/N]; the animation written holds the frames
    of those of the [N] files that render, in sorted order, so fewer than
    the count requested; and the run raises only where it would with any
    count, in the duration computation or in the write, never because
    files are missing. *)
Theorem C9_no_subsampling_when_enough_requested
        (E : Env) (w : World E) (networks_dir output_gif task_name : string)
        (fps num_snapshots : Z) :
  let network_files := sorted (glob E (os_path_join networks_dir "*.out")) in
  let run :=
    create_comparison_gif E networks_dir output_gif task_name fps num_snapshots w in
  Z.of_nat (List.length network_files) <= num_snapshots ->
  select_snapshots network_files num_snapshots = Ok network_files /\
  progress (console (fst run))
  = (progress (console w)
     ++ map (fun k => (k, List.length network_files))
          (seq 1 (List.length network_files)))%list /\
  (forall d : Z,
      List.filter (renders_snapshot E task_name) network_files <> [] ->
      duration fps = Ok d ->
      image_save E output_gif (rendered_snapshots E task_name network_files) d 0
      = Ok tt ->
      exists (w' : World E) (frames : list (Image E)),
        run = (w', Ok tt) /\
        lookup output_gif (written w')
        = Some {| gif_frames := frames; gif_duration := d; gif_loop := 0 |} /\
        Forall2 (fun f img => rendered_snapshot E task_name f = Some img)
                (List.filter (renders_snapshot E task_name) network_files) frames) /\
  (forall e : exn,
      snd run = Raise e ->
      List.filter (renders_snapshot E task_name) network_files <> [] /\
      ((fps = 0 /\ e = ZeroDivisionError) \/
       (exists d : Z,
           duration fps = Ok d /\
           image_save E output_gif (rendered_snapshots E task_name network_files) d 0
           = Raise e))).
Proof.
  intros network_files run HK.
  assert (Hsel : select_snapshots network_files num_snapshots = Ok network_files).
  { unfold select_snapshots.
    destruct (Z.ltb_spec num_snapshots (Z.of_nat (List.length network_files)));
      [lia | reflexivity]. }
  split; [exact Hsel|].
  destruct (list_eq_dec string_dec network_files []) as [Hnil|Hne].
  - assert (Hrun : run = (print (NoFilesFound networks_dir) w, Ok tt)).
    { unfold run, create_comparison_gif. fold network_files. rewrite Hnil. reflexivity. }
    rewrite Hrun, Hnil. cbn [fst snd List.length seq map List.filter].
    split; [|split].
    + cbn. rewrite progress_app. reflexivity.
    + intros d Hok. contradiction Hok. reflexivity.
    + intros e He. discriminate He.
  - split; [|split].
    + apply (comparison_run_console E w networks_dir output_gif task_name fps
               num_snapshots network_files Hne Hsel).
    + intros d Hok Hd Hsave.
      assert (Hfr : rendered_snapshots E task_name network_files <> []).
      { intros Hn. apply Hok. apply rendered_snapshots_none_iff. exact Hn. }
      destruct (comparison_run_writes E w networks_dir output_gif task_name fps
                  num_snapshots d network_files Hsel Hfr Hd Hsave) as (w' & R1 & R2).
      exists w', (rendered_snapshots E task_name network_files).
      split; [exact R1|]. split; [exact R2|].
      apply (flat_map_frames_Forall2 (rendered_snapshot E task_name)).
    + intros e. unfold run.
      rewrite (comparison_run_outcome E w networks_dir output_gif task_name fps
                 num_snapshots network_files Hne Hsel).
      destruct (rendered_snapshots E task_name network_files) as [|first rest] eqn:Hfr;
        [discriminate|].
      intros He. split.
      * intros Hn. apply rendered_snapshots_none_iff in Hn. rewrite Hn in Hfr.
        discriminate Hfr.
      * destruct (duration fps) as [d|e0] eqn:Hd; cbn [bind] in He.
        -- right. exists d. split; [reflexivity | exact He].
        -- left. inversion He. subst e0. apply duration_raises in Hd.
           destruct Hd as [-> ->]. split; reflexivity.
Qed.

(** C2, as the code has it: for [N] files, [N] at most [2^53], and a
    requested count [K] with [2 <= K <= N] (or [K = N]), the even sampling
    selects exactly [K] files, the first of which is the first file of the
    list and the last of which is its last file. *)
Theorem C2_even_sampling_keeps_both_ends
        (network_files : list string) (K : Z) :
  let N := Z.of_nat (List.length network_files) in
  1 <= N <= 2 ^ 53 ->
  2 <= K <= N \/ K = N ->
  exists selected : list string,
    select_snapshots network_files K = Ok selected /\
    Z.of_nat (List.length selected) = K /\
    hd_error selected = hd_error network_files /\
    last selected "" = last network_files "".
Proof.
  intros N HN HK.
  destruct (Z.eq_dec K N) as [->|Hlt].
  - exists network_files. unfold select_snapshots. fold N.
    rewrite Z.ltb_irrefl. repeat split.
  - assert (H2 : 2 <= K < N) by lia. clear HK Hlt.
    pose proof (select_snapshots_even network_files (N - 1) (K - 1)) as Hsel.
    replace (K - 1 + 1) with K in Hsel by lia.
    rewrite Hsel by (unfold N in *; lia). clear Hsel.
    eexists. split; [reflexivity|]. repeat split.
    + rewrite length_app, length_map, range_length. cbn [List.length]. lia.
    + rewrite <- (Z.succ_pred (K - 1)), <- Z.add_1_r.
      unfold range at 1. replace (Z.to_nat (Z.pred (K - 1) + 1))
        with (S (Z.to_nat (Z.pred (K - 1)))) by lia.
      cbn [seq map app hd_error]. rewrite position_0.
      destruct network_files; [cbn in N; lia | reflexivity].
    + rewrite last_last. unfold N.
      replace (Z.to_nat (Z.of_nat (List.length network_files) - 1))
        with (List.length network_files - 1)%nat by lia.
      apply nth_last_index.
Qed.

(** C3, as the code has it: for [2 <= K < N <= 2^25] the even sampling
    computes [K] indices; index [i] is [floor(i * (N-1) / (K-1))], the
    interpolated position rounded down, save that at an interior index where
    [K-1] divides [i * (N-1)] the double-precision product may fall just
    short of that integer, and the index is then one less. *)
Theorem C3_even_sampling_indices (N K : Z) :
  2 <= K -> K < N -> N <= 2 ^ 25 ->
  exists indices : list Z,
    linspace_int 0 (N - 1) K = Ok indices /\
    Z.of_nat (List.length indices) = K /\
    forall i : Z,
      0 <= i < K ->
      exists c : Z,
        nth_error indices (Z.to_nat i) = Some c /\
        (c = i * (N - 1) / (K - 1) \/
         (c = i * (N - 1) / (K - 1) - 1 /\
          0 < i < K - 1 /\ (i * (N - 1)) mod (K - 1) = 0)).
Proof.
  intros HK HKN HN.
  pose proof (linspace_int_indices (N - 1) (K - 1)) as Hl.
  replace (K - 1 + 1) with K in Hl by lia.
  rewrite Hl by lia. clear Hl.
  eexists. split; [reflexivity|]. split.
  { rewrite length_app, length_map, range_length. cbn [List.length]. lia. }
  intros i Hi.
  destruct (Z.eq_dec i (K - 1)) as [->|Hlast].
  - exists (N - 1). split.
    + rewrite nth_error_app2 by (rewrite length_map, range_length; lia).
      rewrite length_map, range_length, Nat.sub_diag. reflexivity.
    + left. rewrite Z.mul_comm, Z.div_mul by lia. reflexivity.
  - exists (Qfloor (position (N - 1) (K - 1) i)). split.
    + rewrite nth_error_app1 by (rewrite length_map, range_length; lia).
      rewrite nth_error_map, range_nth_error by lia.
      rewrite Z2Nat.id by lia. reflexivity.
    + assert (Hid : i * (N - 1) < 2 ^ 51).
      { assert (i * (N - 1) <= 2 ^ 25 * 2 ^ 25) by nia. lia. }
      destruct (index_is_floor (N - 1) (K - 1) i ltac:(lia) ltac:(lia) ltac:(lia)
                  ltac:(lia) Hid) as [F1 F2].
      destruct (Z.eq_dec ((i * (N - 1)) mod (K - 1)) 0) as [Hm|Hm].
      * destruct F2 as [F2|F2]; [left; exact F2|].
        destruct (Z.eq_dec i 0) as [->|Hi0].
        { rewrite position_0 in F2. change (Qfloor 0) with 0 in F2.
          rewrite Z.mul_0_l, Z.div_0_l in F2 by lia. lia. }
        right. repeat split; try assumption; lia.
      * left. apply F1. exact Hm.
Qed.

(** The exception is real: with 31 files and 23 snapshots, index 11 is 14
    although [11 * 30 / 22] is exactly 15. *)
Lemma even_sampling_can_fall_short :
  exists indices : list Z,
    linspace_int 0 (31 - 1) 23 = Ok indices /\
    nth_error indices 11 = Some 14 /\
    11 * (31 - 1) / (23 - 1) = 15.
Proof. eexists. split; [vm_compute; reflexivity|]. split; reflexivity. Qed.

(** C5, as the code has it: for a positive integer frame rate the duration
    the program computes and hands to [Image.save], for every frame, is
    [1000 / fps] truncated to an integer, and the loop count it hands over
    is [0], which makes the animation loop for ever.  With these arguments
    the animation is written when [Image.save] returns, and what it raises
    reaches the caller.  The duration equals [round(1000 / fps)] whenever
    the fractional part of [1000 / fps] is below one half. *)
Theorem C5_duration_is_truncated
        (E : Env) (settings : bool) (output_gif : string) (fps : Z)
        (w : World E) (first : Image E) (rest : list (Image E)) :
  0 < fps ->
  duration fps = Ok (1000 / fps) /\
  (image_save E output_gif (first :: rest) (1000 / fps) 0 = Ok tt ->
   exists w' : World E,
     save_frames E settings output_gif fps (w, first :: rest) = (w', Ok tt) /\
     lookup output_gif (written w')
     = Some {| gif_frames := first :: rest;
               gif_duration := 1000 / fps;
               gif_loop := 0 |}) /\
  (forall e : exn,
      image_save E output_gif (first :: rest) (1000 / fps) 0 = Raise e ->
      snd (save_frames E settings output_gif fps (w, first :: rest)) = Raise e) /\
  (2 * (1000 mod fps) < fps -> rounded_duration fps = 1000 / fps).
Proof.
  intros Hf. pose proof (duration_floor fps Hf) as Hd.
  split; [exact Hd|]. split; [|split].
  - intros Hsave. apply save_frames_writes; assumption.
  - intros e Hsave.
    apply (save_frames_raises E settings output_gif fps (1000 / fps) w first rest e Hd
             Hsave).
  - intros Hm. apply rounded_duration_floor; assumption.
Qed.

(** C8, as the code has it: the label is the base name with every
    occurrence of [.out] removed; when the base name is [s ++ ".out"] for a
    name [s] that holds no other [.out] (and is not made of dots only), the
    label is [s], the filename stem. *)
Theorem C8_generation_is_stem_of_plain_names (network_file s : string) :
  basename network_file = s ++ ".out" ->
  contains ".out" s = false ->
  only_dots s = false ->
  generation network_file = s /\
  generation network_file = stem (basename network_file).
Proof.
  intros Hb Hc Hd. unfold generation. rewrite Hb.
  rewrite (replace_stem s Hc), (stem_app s Hd). split; reflexivity.
Qed.

(* ----------------------------------------------------------------- *)
(** ** The theorems at concrete inputs *)

(** Three snapshots, the second of which fails to rasterise: two frames,
    those of the first and of the third. *)
Lemma C1_witness :
  exists (w' : World one_bad_snapshot) (frames : list (Image one_bad_snapshot)),
    visualize_network_evolution one_bad_snapshot "log" "evolution.gif" "slimevolley"
      2 1 (empty_world one_bad_snapshot) = (w', Ok tt) /\
    lookup "evolution.gif" (written w')
    = Some {| gif_frames := frames; gif_duration := 500; gif_loop := 0 |} /\
    List.length frames
    = List.length (List.filter (renders one_bad_snapshot "slimevolley")
                     ["log/gen1.out"; "log/gen2.out"; "log/gen3.out"]) /\
    Forall2 (fun f img => rendered one_bad_snapshot "slimevolley" f = Some img)
            (List.filter (renders one_bad_snapshot "slimevolley")
               ["log/gen1.out"; "log/gen2.out"; "log/gen3.out"]) frames.
Proof.
  apply (C1_frames_are_the_successful_renders one_bad_snapshot
           (empty_world one_bad_snapshot) "log" "evolution.gif" "slimevolley" 2 1 500
           ["log/gen1.out"; "log/gen2.out"; "log/gen3.out"]).
  - vm_compute. reflexivity.
  - vm_compute. discriminate.
  - vm_compute. reflexivity.
  - reflexivity.
Defined.

(** Three snapshots, none of which can be drawn. *)
Lemma C6_witness :
  exists w' : World no_snapshot_draws,
    visualize_network_evolution no_snapshot_draws "log" "evolution.gif" "slimevolley"
      2 1 (empty_world no_snapshot_draws) = (w', Ok tt) /\
    written w' = written (empty_world no_snapshot_draws).
Proof.
  apply (C6_no_files_or_no_frames_returns_normally no_snapshot_draws
           (empty_world no_snapshot_draws) "log" "evolution.gif" "slimevolley" 2 1).
  right. exists ["log/gen1.out"; "log/gen2.out"; "log/gen3.out"].
  split; [vm_compute; reflexivity|].
  intros f Hf. reflexivity.
Defined.

(** Three snapshots that render, and a frame rate of zero. *)
Lemma C10_witness :
  visualize_network_evolution three_snapshots "log" "evolution.gif" "slimevolley"
    0 1 (empty_world three_snapshots)
  = (fst (for_enumerate three_snapshots
            (render_frame three_snapshots "slimevolley" 3) 0
            ["log/gen1.out"; "log/gen2.out"; "log/gen3.out"]
            (print (CreatingGif 3) (print (FoundFiles 3) (empty_world three_snapshots)),
             [])),
     Raise ZeroDivisionError) /\
  snd (for_enumerate three_snapshots
         (render_frame three_snapshots "slimevolley" 3) 0
         ["log/gen1.out"; "log/gen2.out"; "log/gen3.out"]
         (print (CreatingGif 3) (print (FoundFiles 3) (empty_world three_snapshots)),
          [])) <> [] /\
  written
    (fst (for_enumerate three_snapshots
            (render_frame three_snapshots "slimevolley" 3) 0
            ["log/gen1.out"; "log/gen2.out"; "log/gen3.out"]
            (print (CreatingGif 3) (print (FoundFiles 3) (empty_world three_snapshots)),
             [])))
  = written (empty_world three_snapshots) /\
  forall settings out w1 first rest,
    save_frames three_snapshots settings out 0 (w1, first :: rest)
    = (w1, Raise ZeroDivisionError).
Proof.
  apply (C10_zero_fps_raises_after_rendering three_snapshots
           (empty_world three_snapshots) "log" "evolution.gif" "slimevolley" 1
           ["log/gen1.out"; "log/gen2.out"; "log/gen3.out"]).
  - vm_compute. reflexivity.
  - vm_compute. discriminate.
Defined.

(** Three snapshots and a stride of two: the first and the third. *)
Lemma C4_witness :
  exists selected : list string,
    slice_step (sorted (glob three_snapshots (os_path_join "log" "*.out"))) 2
    = Ok selected /\
    Z.of_nat (List.length selected)
    = ceil_div
        (Z.of_nat (List.length
                     (sorted (glob three_snapshots (os_path_join "log" "*.out"))))) 2 /\
    forall i : nat,
      (i < List.length selected)%nat ->
      nth_error selected i
      = nth_error (sorted (glob three_snapshots (os_path_join "log" "*.out")))
          (i * Z.to_nat 2).
Proof.
  apply (C4_stride_sampling three_snapshots "log" 2).
  - vm_compute. discriminate.
  - lia.
Defined.

(** Three snapshots and the default of ten requested. *)
Lemma C9_witness :
  select_snapshots (sorted (glob three_snapshots (os_path_join "log" "*.out"))) 10
  = Ok (sorted (glob three_snapshots (os_path_join "log" "*.out"))) /\
  progress
    (console (fst (create_comparison_gif three_snapshots "log" "comparison.gif"
                     "slimevolley" 2 10 (empty_world three_snapshots))))
  = (progress (console (empty_world three_snapshots))
     ++ map (fun k =>
               (k, List.length
                     (sorted (glob three_snapshots (os_path_join "log" "*.out")))))
          (seq 1 (List.length
                    (sorted (glob three_snapshots (os_path_join "log" "*.out"))))))%list /\
  (forall d : Z,
      List.filter (renders_snapshot three_snapshots "slimevolley")
        (sorted (glob three_snapshots (os_path_join "log" "*.out"))) <> [] ->
      duration 2 = Ok d ->
      image_save three_snapshots "comparison.gif"
        (rendered_snapshots three_snapshots "slimevolley"
           (sorted (glob three_snapshots (os_path_join "log" "*.out")))) d 0
      = Ok tt ->
      exists (w' : World three_snapshots) (frames : list (Image three_snapshots)),
        create_comparison_gif three_snapshots "log" "comparison.gif" "slimevolley" 2 10
          (empty_world three_snapshots) = (w', Ok tt) /\
        lookup "comparison.gif" (written w')
        = Some {| gif_frames := frames; gif_duration := d; gif_loop := 0 |} /\
        Forall2 (fun f img => rendered_snapshot three_snapshots "slimevolley" f = Some img)
                (List.filter (renders_snapshot three_snapshots "slimevolley")
                   (sorted (glob three_snapshots (os_path_join "log" "*.out"))))
                frames) /\
  (forall e : exn,
      snd (create_comparison_gif three_snapshots "log" "comparison.gif" "slimevolley"
             2 10 (empty_world three_snapshots)) = Raise e ->
      List.filter (renders_snapshot three_snapshots "slimevolley")
        (sorted (glob three_snapshots (os_path_join "log" "*.out"))) <> [] /\
      ((2 = 0 /\ e = ZeroDivisionError) \/
       (exists d : Z,
           duration 2 = Ok d /\
           image_save three_snapshots "comparison.gif"
             (rendered_snapshots three_snapshots "slimevolley"
                (sorted (glob three_snapshots (os_path_join "log" "*.out")))) d 0
           = Raise e))).
Proof.
  apply (C9_no_subsampling_when_enough_requested three_snapshots
           (empty_world three_snapshots) "log" "comparison.gif" "slimevolley" 2 10).
  vm_compute. discriminate.
Defined.

(** Five snapshots and three requested. *)
Lemma C2_witness :
  exists selected : list string,
    select_snapshots five_generations 3 = Ok selected /\
    Z.of_nat (List.length selected) = 3 /\
    hd_error selected = hd_error five_generations /\
    last selected "" = last five_generations "".
Proof.
  apply (C2_even_sampling_keeps_both_ends five_generations 3).
  - vm_compute. split; discriminate.
  - left. vm_compute. split; discriminate.
Defined.

(** Five files and four snapshots: the indices 0, 1, 2, 4. *)
Lemma C3_witness :
  exists indices : list Z,
    linspace_int 0 (5 - 1) 4 = Ok indices /\
    Z.of_nat (List.length indices) = 4 /\
    forall i : Z,
      0 <= i < 4 ->
      exists c : Z,
        nth_error indices (Z.to_nat i) = Some c /\
        (c = i * (5 - 1) / (4 - 1) \/
         (c = i * (5 - 1) / (4 - 1) - 1 /\
          0 < i < 4 - 1 /\ (i * (5 - 1)) mod (4 - 1) = 0)).
Proof. apply (C3_even_sampling_indices 5 4); lia. Defined.

(** Thirty frames per second: 33 milliseconds. *)
Lemma C5_witness :
  duration 30 = Ok (1000 / 30) /\
  (image_save three_snapshots "evolution.gif"
     (["Generation gen1"; "Generation gen2"] : list (Image three_snapshots))
     (1000 / 30) 0 = Ok tt ->
   exists w' : World three_snapshots,
     save_frames three_snapshots true "evolution.gif" 30
       (empty_world three_snapshots,
        (["Generation gen1"; "Generation gen2"] : list (Image three_snapshots)))
     = (w', Ok tt) /\
     lookup "evolution.gif" (written w')
     = Some {| gif_frames :=
                 (["Generation gen1"; "Generation gen2"] : list (Image three_snapshots));
               gif_duration := 1000 / 30;
               gif_loop := 0 |}) /\
  (forall e : exn,
      image_save three_snapshots "evolution.gif"
        (["Generation gen1"; "Generation gen2"] : list (Image three_snapshots))
        (1000 / 30) 0 = Raise e ->
      snd (save_frames three_snapshots true "evolution.gif" 30
             (empty_world three_snapshots,
              (["Generation gen1"; "Generation gen2"] : list (Image three_snapshots))))
      = Raise e) /\
  (2 * (1000 mod 30) < 30 -> rounded_duration 30 = 1000 / 30).
Proof.
  apply (C5_duration_is_truncated three_snapshots true "evolution.gif" 30
           (empty_world three_snapshots) "Generation gen1" ["Generation gen2"]).
  lia.
Defined.

(** The example of the specification. *)
Lemma C8_witness :
  generation "log/gen0032.out" = "gen0032" /\
  generation "log/gen0032.out" = stem (basename "log/gen0032.out").
Proof.
  apply (C8_generation_is_stem_of_plain_names "log/gen0032.out" "gen0032");
    reflexivity.
Defined.

(* ----------------------------------------------------------------- *)
(** ** Where the specification and the code part *)

(** C2 fails for [K = 1]: of two files, one is selected, as requested, but
    it is the first, and the last file is not among the selected. *)
Lemma C2_counterexample :
  exists selected : list string,
    select_snapshots ["log/gen1.out"; "log/gen2.out"] 1 = Ok selected /\
    1 <= Z.of_nat (List.length ["log/gen1.out"; "log/gen2.out"]) /\
    last ["log/gen1.out"; "log/gen2.out"] "" = "log/gen2.out" /\
    ~ In "log/gen2.out" selected.
Proof.
  exists ["log/gen1.out"]. split; [vm_compute; reflexivity|].
  split; [cbn; lia|]. split; [reflexivity|].
  intros [H|[]]. discriminate H.
Qed.

(** C3 fails for five files and four snapshots: index 2 is 2, the floor of
    [8/3], where rounding to nearest gives 3. *)
Lemma C3_counterexample :
  exists indices : list Z,
    linspace_int 0 (5 - 1) 4 = Ok indices /\
    nth_error indices 2 = Some 2 /\
    nearest_index 5 4 2 = 3.
Proof.
  exists [0; 1; 2; 4]. split; [vm_compute; reflexivity|]. split; reflexivity.
Qed.

(** C5 fails for six frames per second: the animation is written with 166
    milliseconds per frame, where [round(1000 / 6)] is 167. *)
Lemma C5_counterexample :
  exists (w' : World three_snapshots) (g : Gif three_snapshots),
    visualize_network_evolution three_snapshots "log" "evolution.gif" "slimevolley"
      6 1 (empty_world three_snapshots) = (w', Ok tt) /\
    lookup "evolution.gif" (written w') = Some g /\
    gif_duration g = 166 /\
    rounded_duration 6 = 167.
Proof.
  eexists. eexists. split; [vm_compute; reflexivity|].
  split; [vm_compute; reflexivity|]. split; reflexivity.
Qed.

(** C8 fails for a base name that holds [.out] twice: the label loses both,
    the stem only the extension. *)
Lemma C8_counterexample :
  generation "log/best.output.out" = "bestput" /\
  stem (basename "log/best.output.out") = "best.output".
Proof. split; reflexivity. Qed.

(* ----------------------------------------------------------------- *)
(** ** When the pipelines raise *)

Lemma slice_step_raises {A : Type} (xs : list A) (step : Z) (e : exn) :
  slice_step xs step = Raise e <-> step = 0 /\ e = ValueError.
Proof.
  destruct step; cbn; split; try (intros [? ?]; lia); try discriminate.
  - intros H. inversion H. split; reflexivity.
  - intros [_ ->]. reflexivity.
Qed.



(* ----------------------------------------------------------------- *)
(** ** The even sampling never indexes out of range *)



(* ----------------------------------------------------------------- *)
(** ** The frames of the comparison animation *)

(** In the comparison pipeline, too, the animation holds one frame for each
    selected file that renders (its matrix loads and slices, [viewInd] draws
    it, the figure rasterises), in the order of the files, and a file that
    fails is left out; this for a frame rate from which the duration can be
    computed and a call of [Image.save] that returns. *)
Theorem comparison_frames_are_the_successful_renders
        (E : Env) (w : World E) (networks_dir output_gif task_name : string)
        (fps num_snapshots d : Z) (selected : list string) :
  select_snapshots (sorted (glob E (os_path_join networks_dir "*.out"))) num_snapshots
  = Ok selected ->
  List.filter (renders_snapshot E task_name) selected <> [] ->
  duration fps = Ok d ->
  image_save E output_gif (rendered_snapshots E task_name selected) d 0 = Ok tt ->
  exists (w' : World E) (frames : list (Image E)),
    create_comparison_gif E networks_dir output_gif task_name fps num_snapshots w
    = (w', Ok tt) /\
    lookup output_gif (written w')
    = Some {| gif_frames := frames; gif_duration := d; gif_loop := 0 |} /\
    Forall2 (fun f img => rendered_snapshot E task_name f = Some img)
            (List.filter (renders_snapshot E task_name) selected) frames.
Proof.
  intros Hs Hok Hd Hsave.
  assert (Hfr : rendered_snapshots E task_name selected <> []).
  { intros Hn. apply Hok. apply rendered_snapshots_none_iff. exact Hn. }
  destruct (comparison_run_writes E w networks_dir output_gif task_name fps
              num_snapshots d selected Hs Hfr Hd Hsave) as (w' & R1 & R2).
  exists w', (rendered_snapshots E task_name selected).
  split; [exact R1|]. split; [exact R2|].
  apply (flat_map_frames_Forall2 (rendered_snapshot E task_name)).
Qed.

(* ----------------------------------------------------------------- *)
(** ** The figures a run leaves open *)

(** One iteration of the plain pipeline adds the figure it created to the
    open ones exactly when it raised after the figure had been created. *)
Lemma render_frame_figures (E : Env) (task_name : string) (total i : nat)
      (f : string) (w : World E) (frames : list (Image E)) :
  open_figures (fst (render_frame E task_name total i f (w, frames)))
  = (open_figures w
     ++ (if leaks E task_name f then [fresh_figure (open_figures w)] else []))%list.
Proof.
  unfold leaks, render_frame.
  destruct (viewInd E f task_name) as [drawing|e]; cbn.
  - destruct (rasterize E drawing _) as [img|e]; cbn; [|reflexivity].
    rewrite close_fresh_figure, app_nil_r. reflexivity.
  - destruct (viewInd_leaks E f task_name); cbn; [|rewrite app_nil_r]; reflexivity.
Qed.

(** A loop whose body behaves so leaves one more figure open for each file
    that leaks, each under a number above those in use before. *)
Lemma for_enumerate_figures (E : Env) (body : nat -> string -> State E -> State E)
      (leaking : string -> bool) :
  (forall i f w frames,
      open_figures (fst (body i f (w, frames)))
      = (open_figures w
         ++ (if leaking f then [fresh_figure (open_figures w)] else []))%list) ->
  forall (selected : list string) (i : nat) (w : World E) (frames : list (Image E)),
  exists leaked : list nat,
    open_figures (fst (for_enumerate E body i selected (w, frames)))
    = (open_figures w ++ leaked)%list /\
    List.length leaked = List.length (List.filter leaking selected) /\
    Forall (fun fig => (list_max (open_figures w) < fig)%nat) leaked.
Proof.
  intros Hb. induction selected as [|f rest IH]; intros i w frames.
  - exists []. cbn. rewrite app_nil_r. repeat split. constructor.
  - cbn [for_enumerate].
    pose proof (Hb i f w frames) as H1.
    destruct (body i f (w, frames)) as [w1 frames1]. cbn [fst] in H1.
    destruct (IH (S i) w1 frames1) as (leaked & L1 & L2 & L3).
    exists ((if leaking f then [fresh_figure (open_figures w)] else []) ++ leaked)%list.
    split; [rewrite L1, H1, app_assoc; reflexivity|].
    split.
    { rewrite length_app, L2. cbn [List.filter]. destruct (leaking f); reflexivity. }
    apply Forall_app. split.
    + destruct (leaking f); [|constructor].
      constructor; [unfold fresh_figure; lia | constructor].
    + eapply Forall_impl; [|exact L3]. cbn. intros fig Hfig.
      rewrite H1, list_max_app in Hfig. lia.
Qed.

Lemma save_frames_figures (E : Env) (settings : bool) (output_gif : string) (fps : Z)
      (st : State E) :
  open_figures (fst (save_frames E settings output_gif fps st)) = open_figures (fst st).
Proof.
  destruct st as [w [|first rest]]; [reflexivity|].
  unfold save_frames, save. destruct (duration fps) as [d|e]; [|reflexivity].
  destruct (image_save E output_gif (first :: rest) d 0) as [[]|e];
    [destruct settings|]; reflexivity.
Qed.

(** After a run of the plain pipeline the open figures are those that were
    open before, followed by one new figure for each selected file whose
    iteration raised after its figure had been created, in [viewInd] or in
    the rasterisation; a file that renders leaves no figure behind.  The
    new figures have numbers above all those open before. *)
Theorem plain_run_leaves_one_figure_per_leak
        (E : Env) (w : World E) (networks_dir output_gif task_name : string)
        (fps sample_every : Z) (selected : list string) :
  slice_step (sorted (glob E (os_path_join networks_dir "*.out"))) sample_every
  = Ok selected ->
  exists leaked : list nat,
    open_figures
      (fst (visualize_network_evolution E networks_dir output_gif task_name fps
              sample_every w))
    = (open_figures w ++ leaked)%list /\
    List.length leaked = List.length (List.filter (leaks E task_name) selected) /\
    Forall (fun fig => (list_max (open_figures w) < fig)%nat) leaked.
Proof.
  intros Hs.
  destruct (sorted (glob E (os_path_join networks_dir "*.out"))) as [|f0 rest0] eqn:Hfiles.
  { apply slice_step_nil in Hs. subst selected.
    unfold visualize_network_evolution. rewrite Hfiles.
    exists []. cbn. rewrite app_nil_r. repeat split. constructor. }
  assert (Hne : sorted (glob E (os_path_join networks_dir "*.out")) <> [])
    by (rewrite Hfiles; discriminate).
  rewrite <- Hfiles in Hs.
  rewrite (visualize_network_evolution_selected E w _ _ _ _ _ selected Hne Hs).
  rewrite save_frames_figures.
  apply (for_enumerate_figures E (render_frame E task_name (List.length selected))
           (leaks E task_name)
           (render_frame_figures E task_name (List.length selected))
           selected 0
           (print (CreatingGif (List.length selected))
              (print (FoundFiles (List.length selected)) w)) []).
Qed.

(* ----------------------------------------------------------------- *)
(** ** What a run reports *)

(** The console of a run of the plain pipeline: one progress line for each
    selected file, numbered from 1 to the number of selected files, and one
    error line for each file that failed to render, in the order of the
    files, naming the file; and this for every frame rate, zero included. *)
Theorem plain_run_reports_every_file_and_every_failure
        (E : Env) (w : World E) (networks_dir output_gif task_name : string)
        (fps sample_every : Z) (selected : list string) :
  slice_step (sorted (glob E (os_path_join networks_dir "*.out"))) sample_every
  = Ok selected ->
  let w' := fst (visualize_network_evolution E networks_dir output_gif task_name fps
                   sample_every w) in
  logged_errors (console w')
  = (logged_errors (console w)
     ++ List.filter (fun f => negb (renders E task_name f)) selected)%list /\
  progress (console w')
  = (progress (console w)
     ++ map (fun k => (k, List.length selected)) (seq 1 (List.length selected)))%list.
Proof.
  intros Hs.
  destruct (sorted (glob E (os_path_join networks_dir "*.out"))) as [|f0 rest0] eqn:Hfiles.
  { apply slice_step_nil in Hs. subst selected.
    unfold visualize_network_evolution. rewrite Hfiles. cbn.
    rewrite logged_errors_app, progress_app. cbn. split; reflexivity. }
  assert (Hne : sorted (glob E (os_path_join networks_dir "*.out")) <> [])
    by (rewrite Hfiles; discriminate).
  rewrite <- Hfiles in Hs.
  rewrite (visualize_network_evolution_selected E w _ _ _ _ _ selected Hne Hs).
  cbn zeta.
  destruct (save_frames_console E true output_gif fps
              (for_enumerate E (render_frame E task_name (List.length selected)) 0
                 selected
                 (print (CreatingGif (List.length selected))
                    (print (FoundFiles (List.length selected)) w), [])))
    as [-> ->].
  destruct (plain_loop_console E task_name (List.length selected) selected 0
              (print (CreatingGif (List.length selected))
                 (print (FoundFiles (List.length selected)) w)) []) as [L1 L2].
  cbn zeta in L1, L2. rewrite L1, L2. cbn [print console].
  rewrite !logged_errors_app, !progress_app. cbn. rewrite !app_nil_r.
  split; reflexivity.
Qed.

(* ----------------------------------------------------------------- *)
(** ** The duration at any frame rate *)

Lemma py_int_opp (x : Q) : py_int (- x) = - py_int x.
Proof. destruct x as [a b]. unfold py_int. cbn. apply Z.quot_opp_l. discriminate. Qed.

(** [int(1000 / fps)] is the quotient truncated toward zero at every
    non-zero integer frame rate: a negative rate gives a negative duration
    and is not refused, and a rate above 1000 gives a duration of zero. *)
Theorem duration_truncates_toward_zero (fps : Z) :
  fps <> 0 ->
  duration fps = Ok (Z.quot 1000 fps) /\
  (1000 < Z.abs fps -> duration fps = Ok 0).
Proof.
  intros Hf.
  assert (H : duration fps = Ok (Z.quot 1000 fps)).
  { destruct fps as [|p|p]; [contradiction| |].
    - rewrite duration_floor by lia. rewrite Z.quot_div_nonneg by lia. reflexivity.
    - pose proof (duration_floor (Zpos p) ltac:(lia)) as Hp.
      unfold duration, py_truediv in Hp |- *. cbn [Z.eqb bind] in Hp |- *.
      injection Hp as Hp. f_equal.
      change (fdiv (inject_Z 1000) (inject_Z (Zneg p)))
        with (- fdiv (inject_Z 1000) (inject_Z (Zpos p)))%Q.
      rewrite py_int_opp, Hp.
      change (Zneg p) with (- Zpos p). rewrite Z.quot_opp_r by discriminate.
      rewrite Z.quot_div_nonneg by lia. reflexivity. }
  split; [exact H|].
  intros Hbig. rewrite H. f_equal. apply Z.quot_small_iff; lia.
Qed.

(* ----------------------------------------------------------------- *)
(** ** A negative stride *)

Lemma nth_error_rev_index {A : Type} (xs : list A) (k : nat) :
  (k < List.length xs)%nat ->
  nth_error (rev xs) k = nth_error xs (List.length xs - 1 - k).
Proof.
  intros Hk. rewrite nth_error_rev.
  destruct (Nat.ltb_spec k (List.length xs)); [|lia].
  f_equal. lia.
Qed.

(** [network_files[::S]] with [S <= -1] walks the sorted list backwards:
    it keeps [ceil(N / |S|)] files, and the one at position [i] is the file
    at position [N - 1 - i * |S|]; with [S = -1] the animation runs from the
    last generation to the first. *)
Theorem negative_stride_samples_backwards
        (E : Env) (networks_dir : string) (S : Z) :
  let network_files := sorted (glob E (os_path_join networks_dir "*.out")) in
  S <= -1 ->
  exists selected : list string,
    slice_step network_files S = Ok selected /\
    Z.of_nat (List.length selected)
    = ceil_div (Z.of_nat (List.length network_files)) (- S) /\
    (forall i : nat,
        (i < List.length selected)%nat ->
        nth_error selected i
        = nth_error network_files
            (List.length network_files - 1 - i * Z.to_nat (- S))) /\
    (S = -1 -> selected = rev network_files).
Proof.
  intros network_files HS.
  destruct S as [|p|p]; try lia.
  exists (every_nth 0 (Pos.to_nat p) (rev network_files)).
  assert (Hp : (1 <= Pos.to_nat p)%nat) by lia.
  assert (Hlen : Z.of_nat (List.length (every_nth 0 (Pos.to_nat p) (rev network_files)))
                 = ceil_div (Z.of_nat (List.length network_files)) (- Zneg p)).
  { rewrite (every_nth_length (Pos.to_nat p) (rev network_files) Hp).
    rewrite length_rev, positive_nat_Z. reflexivity. }
  split; [reflexivity|]. split; [exact Hlen|]. split.
  - intros i Hi.
    rewrite (every_nth_nth_error (Pos.to_nat p) (rev network_files) Hp 0 i).
    cbn [Nat.add Z.opp]. rewrite Z2Nat.inj_pos.
    apply nth_error_rev_index.
    apply Nat.nlt_ge. intros Hge.
    assert (Hnone : nth_error (every_nth 0 (Pos.to_nat p) (rev network_files)) i = None).
    { rewrite (every_nth_nth_error (Pos.to_nat p) (rev network_files) Hp 0 i).
      apply nth_error_None. rewrite length_rev. cbn [Nat.add]. lia. }
    apply nth_error_None in Hnone. lia.
  - intros H1. assert (p = 1%positive) by lia. subst p.
    change (Pos.to_nat 1) with 1%nat. apply every_nth_one.
Qed.

(* ----------------------------------------------------------------- *)
(** ** The even sampling keeps the order and repeats no file *)

Lemma linspace_index (d v i : Z) :
  0 < v -> v <= d -> d < 2 ^ 53 -> 0 <= i <= v ->
  nth_error (map (fun k => Qfloor (position d v k)) (range v) ++ [d])%list (Z.to_nat i)
  = Some (if (i =? v)%Z then d else Qfloor (position d v i)).
Proof.
  intros Hv Hvd Hd Hi. destruct (Z.eqb_spec i v) as [->|Hne].
  - rewrite nth_error_app2 by (rewrite length_map, range_length; lia).
    rewrite length_map, range_length, Nat.sub_diag. reflexivity.
  - rewrite nth_error_app1 by (rewrite length_map, range_length; lia).
    rewrite nth_error_map, range_nth_error by lia.
    rewrite Z2Nat.id by lia. reflexivity.
Qed.

(** For [2 <= K < N <= 2^25] the indices of the even sampling are strictly
    increasing and lie within the list: the selected snapshots are [K]
    different files, in sorted order. *)
Theorem even_sampling_indices_increase (N K : Z) :
  2 <= K -> K < N -> N <= 2 ^ 25 ->
  exists indices : list Z,
    linspace_int 0 (N - 1) K = Ok indices /\
    forall i j a b : Z,
      0 <= i -> i < j -> j < K ->
      nth_error indices (Z.to_nat i) = Some a ->
      nth_error indices (Z.to_nat j) = Some b ->
      0 <= a /\ a < b /\ b <= N - 1.
Proof.
  intros HK HKN HN.
  pose proof (linspace_int_indices (N - 1) (K - 1)) as Hl.
  replace (K - 1 + 1) with K in Hl by lia.
  rewrite Hl by lia. clear Hl.
  eexists. split; [reflexivity|].
  set (d := N - 1). set (v := K - 1).
  assert (Hv : 0 < v) by (unfold v; lia).
  assert (Hvd : v < d) by (unfold v, d; lia).
  assert (Hd : d < 2 ^ 53) by (unfold d; lia).
  assert (Hd25 : d < 2 ^ 25) by (unfold d; lia).
  intros i j a b Hi Hij Hj Ha Hb.
  rewrite (linspace_index d v i) in Ha by lia.
  rewrite (linspace_index d v j) in Hb by lia.
  destruct (Z.eqb_spec i v) as [?|_]; [lia|].
  injection Ha as <-.
  assert (Hid : i * d < 2 ^ 51).
  { assert (i * d <= 2 ^ 25 * 2 ^ 25) by nia. lia. }
  destruct (index_in_range d v i Hv ltac:(lia) Hd ltac:(lia)) as [Ra _].
  destruct (index_is_floor d v i Hv ltac:(lia) Hd ltac:(lia) Hid) as [_ Fi].
  pose proof (Z.div_mod (i * d) v ltac:(lia)) as DMi.
  pose proof (Z.mod_pos_bound (i * d) v Hv) as MBi.
  assert (Hai : Qfloor (position d v i) <= i * d / v) by (destruct Fi; lia).
  split; [exact Ra|].
  destruct (Z.eqb_spec j v) as [->|Hjv].
  - injection Hb as <-. split; [|unfold d; lia].
    assert (i * d / v < d); [|lia].
    apply Z.div_lt_upper_bound; [lia|]. nia.
  - injection Hb as <-.
    assert (Hjd : j * d < 2 ^ 51).
    { assert (j * d <= 2 ^ 25 * 2 ^ 25) by nia. lia. }
    destruct (index_in_range d v j Hv ltac:(lia) Hd ltac:(lia)) as [_ Rb].
    destruct (index_is_floor d v j Hv ltac:(lia) Hd ltac:(lia) Hjd) as [Fj1 Fj2].
    pose proof (Z.div_mod (j * d) v ltac:(lia)) as DMj.
    pose proof (Z.mod_pos_bound (j * d) v Hv) as MBj.
    split; [|unfold d in *; lia].
    destruct (Z.eq_dec ((j * d) mod v) 0) as [Hm|Hm].
    + assert (i * d / v <= j * d / v - 2); [|destruct Fj2; lia].
      assert (i * d / v < j * d / v - 1); [|lia].
      apply Z.div_lt_upper_bound; [lia|]. nia.
    + rewrite (Fj1 Hm).
      assert (i * d / v < j * d / v); [|lia].
      apply Z.div_lt_upper_bound; [lia|]. nia.
Qed.

(* ----------------------------------------------------------------- *)
(** ** The order of discovery *)

Lemma string_compare_trans (a : string) :
  forall b c : string,
    String.compare a b <> Gt -> String.compare b c <> Gt -> String.compare a c <> Gt.
Proof.
  induction a as [|c1 a IH]; intros [|c2 b] [|c3 c]; cbn; try congruence.
  unfold Ascii.compare.
  destruct (N.compare_spec (N_of_ascii c1) (N_of_ascii c2)) as [H12|H12|H12];
    destruct (N.compare_spec (N_of_ascii c2) (N_of_ascii c3)) as [H23|H23|H23];
    destruct (N.compare_spec (N_of_ascii c1) (N_of_ascii c3)) as [H13|H13|H13];
    try congruence; try lia.
  apply IH.
Qed.

Lemma string_leb_trans (a b c : string) :
  String.leb a b = true -> String.leb b c = true -> String.leb a c = true.
Proof.
  unfold String.leb. intros H1 H2.
  pose proof (string_compare_trans a b c) as T.
  destruct (String.compare a b), (String.compare b c), (String.compare a c);
    try reflexivity; try discriminate; exfalso; apply T; congruence.
Qed.

Lemma leb_false (a b : string) : String.leb a b = false -> String.leb b a = true.
Proof. intros H. destruct (String.leb_total a b); congruence. Qed.

Lemma insert_sorted_comm (x y : string) (l : list string) :
  insert_sorted x (insert_sorted y l) = insert_sorted y (insert_sorted x l).
Proof.
  induction l as [|a l IH]; cbn [insert_sorted].
  - destruct (String.leb x y) eqn:Hxy, (String.leb y x) eqn:Hyx; try reflexivity.
    + rewrite (String.leb_antisym x y Hxy Hyx). reflexivity.
    + apply leb_false in Hxy. congruence.
  - destruct (String.leb y a) eqn:Hya, (String.leb x a) eqn:Hxa; cbn [insert_sorted].
    + destruct (String.leb x y) eqn:Hxy, (String.leb y x) eqn:Hyx;
        rewrite ?Hxa, ?Hya; try reflexivity.
      * rewrite (String.leb_antisym x y Hxy Hyx). reflexivity.
      * apply leb_false in Hxy. congruence.
    + assert (Hxy : String.leb x y = false).
      { destruct (String.leb x y) eqn:Hxy; [|reflexivity].
        rewrite (string_leb_trans x y a Hxy Hya) in Hxa. discriminate. }
      rewrite Hxy, Hxa, Hya. reflexivity.
    + assert (Hyx : String.leb y x = false).
      { destruct (String.leb y x) eqn:Hyx; [|reflexivity].
        rewrite (string_leb_trans y x a Hyx Hxa) in Hya. discriminate. }
      rewrite Hyx, Hxa, Hya. reflexivity.
    + rewrite Hxa, Hya, IH. reflexivity.
Qed.

Lemma sorted_of_permutation (l1 l2 : list string) :
  Permutation l1 l2 -> sorted l1 = sorted l2.
Proof.
  induction 1 as [|x l1 l2 _ IH|x y l|l1 l2 l3 _ IH1 _ IH2]; cbn [sorted].
  - reflexivity.
  - rewrite IH. reflexivity.
  - apply insert_sorted_comm.
  - congruence.
Qed.

(** The list both pipelines work on holds the paths [glob] returned, each
    as often as [glob] returned it, in non-decreasing lexicographic order;
    and it is the same list in whatever order [glob] returns them. *)
Theorem discovery_order_is_canonical (E E' : Env) (networks_dir : string) :
  let pattern := os_path_join networks_dir "*.out" in
  Sorted le_string (sorted (glob E pattern)) /\
  Permutation (sorted (glob E pattern)) (glob E pattern) /\
  (Permutation (glob E pattern) (glob E' pattern) ->
   sorted (glob E' pattern) = sorted (glob E pattern)).
Proof.
  intros pattern. split; [apply sorted_Sorted|]. split; [apply sorted_perm|].
  intros HP. symmetry. apply sorted_of_permutation. exact HP.
Qed.

(* ----------------------------------------------------------------- *)
(** ** The label and the directory *)

Lemma after_last_slash_plain (s : string) :
  has_slash s = false -> forall cur, after_last_slash s cur = cur.
Proof.
  induction s as [|c r IH]; intros H cur; [reflexivity|].
  cbn in H. apply orb_false_iff in H. destruct H as [Hc Hr].
  cbn [after_last_slash]. rewrite Hc. apply IH. exact Hr.
Qed.

Lemma after_last_slash_app (a b : string) :
  forall cur, after_last_slash (a ++ String slash b) cur = after_last_slash b b.
Proof.
  induction a as [|c r IH]; intros cur.
  - cbn. reflexivity.
  - cbn [append after_last_slash]. destruct (Ascii.eqb c slash); apply IH.
Qed.

Lemma ends_with_slash_split (a : string) :
  ends_with_slash a = true -> exists a', a = a' ++ String slash "".
Proof.
  induction a as [|c r IH]; [discriminate|].
  destruct r as [|c' r'].
  - cbn. intros H. apply Ascii.eqb_eq in H. subst c. exists "". reflexivity.
  - intros H. change (ends_with_slash (String c' r') = true) in H.
    destruct (IH H) as [a' Ha]. exists (String c a'). cbn. rewrite <- Ha. reflexivity.
Qed.

Lemma string_append_assoc (a b c : string) : (a ++ b) ++ c = a ++ (b ++ c).
Proof. induction a as [|x a IH]; cbn; [reflexivity | rewrite IH; reflexivity]. Qed.

(** The label of a file does not depend on the directory it is found in:
    for a file name without a slash, the base name of
    [os.path.join(networks_dir, name)] is [name] again, whether or not
    [networks_dir] is empty or ends with a slash. *)
Theorem generation_ignores_the_directory (networks_dir name : string) :
  has_slash name = false ->
  basename (os_path_join networks_dir name) = name /\
  generation (os_path_join networks_dir name) = replace name ".out" "".
Proof.
  intros Hn.
  assert (Hb : basename (os_path_join networks_dir name) = name).
  { unfold basename, os_path_join.
    assert (Hplain : after_last_slash name name = name)
      by (apply after_last_slash_plain; exact Hn).
    destruct name as [|c r].
    - destruct (String.eqb_spec networks_dir "") as [->|_]; [reflexivity|]. cbn [orb].
      destruct (ends_with_slash networks_dir) eqn:Hs.
      + destruct (ends_with_slash_split _ Hs) as [a' ->].
        apply after_last_slash_app.
      + apply (after_last_slash_app networks_dir "").
    - cbn in Hn. apply orb_false_iff in Hn. destruct Hn as [Hc Hr]. rewrite Hc.
      destruct (String.eqb_spec networks_dir "") as [->|_]; [exact Hplain|]. cbn [orb].
      destruct (ends_with_slash networks_dir) eqn:Hs.
      + destruct (ends_with_slash_split _ Hs) as [a' ->].
        rewrite string_append_assoc. cbn [append].
        rewrite after_last_slash_app. exact Hplain.
      + change (networks_dir ++ "/" ++ String c r)
          with (networks_dir ++ String slash (String c r)).
        rewrite after_last_slash_app. exact Hplain. }
  split; [exact Hb|]. unfold generation. rewrite Hb. reflexivity.
Qed.

(* ----------------------------------------------------------------- *)
(** ** The statistics of the comparison title *)

Lemma with_last_column_drop (m : list (list Q)) :
  forall column : list Q,
    List.length column = List.length m ->
    map (@removelast Q) (with_last_column m column) = m.
Proof.
  induction m as [|row m IH]; intros [|x column] Hl; try discriminate; [reflexivity|].
  cbn [with_last_column map]. rewrite removelast_last, IH; [reflexivity|].
  cbn in Hl. lia.
Qed.

Lemma with_last_column_length (m : list (list Q)) :
  forall column : list Q,
    List.length column = List.length m ->
    List.length (with_last_column m column) = List.length m.
Proof.
  induction m as [|row m IH]; intros [|x column] Hl; try discriminate; [reflexivity|].
  cbn. rewrite IH; [reflexivity|]. cbn in Hl. lia.
Qed.

(** [ind[:, :-1]] gives back the weights whatever the last column holds: of
    a matrix of two rows or more with a column appended, the weight matrix
    is the matrix itself, so that the node count and the connection count
    of the title do not depend on the last column; and a matrix of a single
    row, which [np.loadtxt] returns one-dimensional, makes the slice raise
    [IndexError]. *)
Theorem weight_matrix_drops_the_last_column
        (m : list (list Q)) (column : list Q) (row : list Q) :
  (2 <= List.length m)%nat ->
  List.length column = List.length m ->
  hd [] m <> [] ->
  weight_matrix (with_last_column m column) = Ok m /\
  weight_matrix [row] = Raise IndexError.
Proof.
  intros Hrows Hcol Hhd. split; [|reflexivity].
  unfold weight_matrix. rewrite (with_last_column_length m column Hcol).
  rewrite (with_last_column_drop m column Hcol).
  destruct m as [|r m]; [cbn in Hrows; lia|].
  destruct column as [|x column]; [discriminate|].
  cbn [with_last_column]. rewrite length_app. cbn [List.length hd] in *.
  destruct r as [|y r]; [contradiction|]. cbn [List.length].
  destruct (Nat.leb_spec (S (List.length m)) 1); [lia|].
  destruct (Nat.leb_spec (S (List.length r) + 1) 1); [lia|].
  reflexivity.
Qed.

(* ----------------------------------------------------------------- *)
(** ** The comparison pipeline: figures and reports *)

Lemma render_snapshot_figures (E : Env) (task_name : string) (total i : nat)
      (f : string) (w : World E) (frames : list (Image E)) :
  open_figures (fst (render_snapshot E task_name total i f (w, frames)))
  = (open_figures w
     ++ (if leaks_snapshot E task_name f
         then [fresh_figure (open_figures w)] else []))%list.
Proof.
  unfold leaks_snapshot, render_snapshot.
  destruct (ind <- loadtxt E f ;; weight_matrix ind) as [wMat|e]; cbn;
    [|rewrite app_nil_r; reflexivity].
  destruct (viewInd E f task_name) as [drawing|e]; cbn.
  - destruct (rasterize E drawing _) as [img|e]; cbn; [|reflexivity].
    rewrite close_fresh_figure, app_nil_r. reflexivity.
  - destruct (viewInd_leaks E f task_name); cbn; [|rewrite app_nil_r]; reflexivity.
Qed.

(** A run of the comparison pipeline accounts for every selected snapshot:
    one progress line each, numbered from 1; one error line for each that
    failed, naming it; and one figure left open for each whose iteration
    raised after its figure had been created.  A snapshot whose matrix does
    not load or has a single row or column fails before any figure. *)
Theorem comparison_run_accounts_for_every_snapshot
        (E : Env) (w : World E) (networks_dir output_gif task_name : string)
        (fps num_snapshots : Z) (selected : list string) :
  sorted (glob E (os_path_join networks_dir "*.out")) <> [] ->
  select_snapshots (sorted (glob E (os_path_join networks_dir "*.out"))) num_snapshots
  = Ok selected ->
  let w' := fst (create_comparison_gif E networks_dir output_gif task_name fps
                   num_snapshots w) in
  (exists leaked : list nat,
      open_figures w' = (open_figures w ++ leaked)%list /\
      List.length leaked
      = List.length (List.filter (leaks_snapshot E task_name) selected) /\
      Forall (fun fig => (list_max (open_figures w) < fig)%nat) leaked) /\
  logged_errors (console w')
  = (logged_errors (console w)
     ++ List.filter (fun f => negb (renders_snapshot E task_name f)) selected)%list /\
  progress (console w')
  = (progress (console w)
     ++ map (fun k => (k, List.length selected)) (seq 1 (List.length selected)))%list.
Proof.
  intros Hne Hs. split.
  - cbn zeta.
    rewrite (create_comparison_gif_selected E w _ _ _ _ _ selected Hne Hs).
    rewrite save_frames_figures.
    apply (for_enumerate_figures E (render_snapshot E task_name (List.length selected))
             (leaks_snapshot E task_name)
             (render_snapshot_figures E task_name (List.length selected))
             selected 0 (print (CreatingComparison (List.length selected)) w) []).
  - apply (comparison_run_console E w networks_dir output_gif task_name fps
             num_snapshots selected Hne Hs).
Qed.

(** The smallest snapshot counts: asked for no snapshot of a directory that
    holds some, the comparison pipeline renders nothing, writes nothing and
    returns; asked for one of two or more, it selects the first file only. *)
Theorem smallest_snapshot_counts
        (E : Env) (w : World E) (networks_dir output_gif task_name : string)
        (fps : Z) (first : string) (rest : list string) :
  sorted (glob E (os_path_join networks_dir "*.out")) = first :: rest ->
  rest <> [] ->
  create_comparison_gif E networks_dir output_gif task_name fps 0 w
  = (print NoFrames (print (CreatingComparison 0) w), Ok tt) /\
  select_snapshots (sorted (glob E (os_path_join networks_dir "*.out"))) 1
  = Ok [first].
Proof.
  intros Hfiles Hrest. split.
  - assert (Hne : sorted (glob E (os_path_join networks_dir "*.out")) <> [])
      by (rewrite Hfiles; discriminate).
    rewrite (create_comparison_gif_selected E w _ _ _ _ _ [] Hne
               (select_snapshots_zero _ Hne)).
    reflexivity.
  - apply (select_snapshots_one _ first rest Hfiles Hrest).
Qed.

(* ----------------------------------------------------------------- *)
(** ** The further theorems at concrete inputs *)


(** Three snapshots, the second of which fails to rasterise, all requested. *)
Lemma comparison_frames_witness :
  exists (w' : World one_bad_snapshot) (frames : list (Image one_bad_snapshot)),
    create_comparison_gif one_bad_snapshot "log" "comparison.gif" "slimevolley" 2 10
      (empty_world one_bad_snapshot) = (w', Ok tt) /\
    lookup "comparison.gif" (written w')
    = Some {| gif_frames := frames; gif_duration := 500; gif_loop := 0 |} /\
    Forall2 (fun f img => rendered_snapshot one_bad_snapshot "slimevolley" f = Some img)
            (List.filter (renders_snapshot one_bad_snapshot "slimevolley")
               ["log/gen1.out"; "log/gen2.out"; "log/gen3.out"]) frames.
Proof.
  apply (comparison_frames_are_the_successful_renders one_bad_snapshot
           (empty_world one_bad_snapshot) "log" "comparison.gif" "slimevolley" 2 10 500
           ["log/gen1.out"; "log/gen2.out"; "log/gen3.out"]).
  - vm_compute. reflexivity.
  - vm_compute. discriminate.
  - vm_compute. reflexivity.
  - reflexivity.
Defined.

(** Three snapshots, none of which can be drawn. *)
Lemma comparison_no_frames_witness :
  exists w' : World no_snapshot_draws,
    create_comparison_gif no_snapshot_draws "log" "comparison.gif" "slimevolley"
      2 10 (empty_world no_snapshot_draws) = (w', Ok tt) /\
    written w' = written (empty_world no_snapshot_draws).
Proof.
  apply (comparison_no_files_or_no_frames no_snapshot_draws
           (empty_world no_snapshot_draws) "log" "comparison.gif" "slimevolley" 2 10).
  right. exists ["log/gen1.out"; "log/gen2.out"; "log/gen3.out"].
  split; [vm_compute; reflexivity|].
  intros f Hf. reflexivity.
Defined.

(** Three snapshots that render, and a frame rate of zero. *)
Lemma comparison_zero_fps_witness :
  exists w' : World three_snapshots,
    create_comparison_gif three_snapshots "log" "comparison.gif" "slimevolley" 0 10
      (empty_world three_snapshots) = (w', Raise ZeroDivisionError) /\
    written w' = written (empty_world three_snapshots).
Proof.
  apply (comparison_zero_fps_raises three_snapshots (empty_world three_snapshots)
           "log" "comparison.gif" "slimevolley" 10
           ["log/gen1.out"; "log/gen2.out"; "log/gen3.out"]).
  - vm_compute. discriminate.
  - vm_compute. reflexivity.
  - vm_compute. discriminate.
Defined.

(** Three snapshots, the second of which fails to rasterise: one figure. *)
Lemma plain_figures_witness :
  exists leaked : list nat,
    open_figures
      (fst (visualize_network_evolution one_bad_snapshot "log" "evolution.gif"
              "slimevolley" 2 1 (empty_world one_bad_snapshot)))
    = (open_figures (empty_world one_bad_snapshot) ++ leaked)%list /\
    List.length leaked
    = List.length (List.filter (leaks one_bad_snapshot "slimevolley")
                     ["log/gen1.out"; "log/gen2.out"; "log/gen3.out"]) /\
    Forall (fun fig => (list_max (open_figures (empty_world one_bad_snapshot)) < fig)%nat)
           leaked.
Proof.
  apply (plain_run_leaves_one_figure_per_leak one_bad_snapshot
           (empty_world one_bad_snapshot) "log" "evolution.gif" "slimevolley" 2 1
           ["log/gen1.out"; "log/gen2.out"; "log/gen3.out"]).
  vm_compute. reflexivity.
Defined.

Lemma plain_reports_witness :
  logged_errors
    (console (fst (visualize_network_evolution one_bad_snapshot "log" "evolution.gif"
                     "slimevolley" 2 1 (empty_world one_bad_snapshot))))
  = (logged_errors (console (empty_world one_bad_snapshot))
     ++ List.filter (fun f => negb (renders one_bad_snapshot "slimevolley" f))
          ["log/gen1.out"; "log/gen2.out"; "log/gen3.out"])%list /\
  progress
    (console (fst (visualize_network_evolution one_bad_snapshot "log" "evolution.gif"
                     "slimevolley" 2 1 (empty_world one_bad_snapshot))))
  = (progress (console (empty_world one_bad_snapshot))
     ++ map (fun k => (k, List.length ["log/gen1.out"; "log/gen2.out"; "log/gen3.out"]))
          (seq 1 (List.length ["log/gen1.out"; "log/gen2.out"; "log/gen3.out"])))%list.
Proof.
  apply (plain_run_reports_every_file_and_every_failure one_bad_snapshot
           (empty_world one_bad_snapshot) "log" "evolution.gif" "slimevolley" 2 1
           ["log/gen1.out"; "log/gen2.out"; "log/gen3.out"]).
  vm_compute. reflexivity.
Defined.

Lemma comparison_accounts_witness :
  (exists leaked : list nat,
      open_figures
        (fst (create_comparison_gif one_bad_snapshot "log" "comparison.gif"
                "slimevolley" 2 10 (empty_world one_bad_snapshot)))
      = (open_figures (empty_world one_bad_snapshot) ++ leaked)%list /\
      List.length leaked
      = List.length (List.filter (leaks_snapshot one_bad_snapshot "slimevolley")
                       ["log/gen1.out"; "log/gen2.out"; "log/gen3.out"]) /\
      Forall (fun fig =>
                (list_max (open_figures (empty_world one_bad_snapshot)) < fig)%nat)
             leaked) /\
  logged_errors
    (console (fst (create_comparison_gif one_bad_snapshot "log" "comparison.gif"
                     "slimevolley" 2 10 (empty_world one_bad_snapshot))))
  = (logged_errors (console (empty_world one_bad_snapshot))
     ++ List.filter (fun f => negb (renders_snapshot one_bad_snapshot "slimevolley" f))
          ["log/gen1.out"; "log/gen2.out"; "log/gen3.out"])%list /\
  progress
    (console (fst (create_comparison_gif one_bad_snapshot "log" "comparison.gif"
                     "slimevolley" 2 10 (empty_world one_bad_snapshot))))
  = (progress (console (empty_world one_bad_snapshot))
     ++ map (fun k => (k, List.length ["log/gen1.out"; "log/gen2.out"; "log/gen3.out"]))
          (seq 1 (List.length ["log/gen1.out"; "log/gen2.out"; "log/gen3.out"])))%list.
Proof.
  apply (comparison_run_accounts_for_every_snapshot one_bad_snapshot
           (empty_world one_bad_snapshot) "log" "comparison.gif" "slimevolley" 2 10
           ["log/gen1.out"; "log/gen2.out"; "log/gen3.out"]).
  - vm_compute. discriminate.
  - vm_compute. reflexivity.
Defined.

Lemma smallest_counts_witness :
  create_comparison_gif three_snapshots "log" "comparison.gif" "slimevolley" 2 0
    (empty_world three_snapshots)
  = (print NoFrames (print (CreatingComparison 0) (empty_world three_snapshots)), Ok tt) /\
  select_snapshots (sorted (glob three_snapshots (os_path_join "log" "*.out"))) 1
  = Ok ["log/gen1.out"].
Proof.
  apply (smallest_snapshot_counts three_snapshots (empty_world three_snapshots)
           "log" "comparison.gif" "slimevolley" 2 "log/gen1.out"
           ["log/gen2.out"; "log/gen3.out"]).
  - vm_compute. reflexivity.
  - discriminate.
Defined.

(** Minus three frames per second, and two thousand. *)
Lemma duration_witness :
  (duration (-3) = Ok (Z.quot 1000 (-3)) /\
   (1000 < Z.abs (-3) -> duration (-3) = Ok 0)) /\
  (duration 2000 = Ok (Z.quot 1000 2000) /\
   (1000 < Z.abs 2000 -> duration 2000 = Ok 0)).
Proof.
  split.
  - apply (duration_truncates_toward_zero (-3)). discriminate.
  - apply (duration_truncates_toward_zero 2000). discriminate.
Defined.

(** Three snapshots and a stride of minus two: the third and the first. *)
Lemma negative_stride_witness :
  exists selected : list string,
    slice_step (sorted (glob three_snapshots (os_path_join "log" "*.out"))) (-2)
    = Ok selected /\
    Z.of_nat (List.length selected)
    = ceil_div
        (Z.of_nat (List.length
                     (sorted (glob three_snapshots (os_path_join "log" "*.out")))))
        (- -2) /\
    (forall i : nat,
        (i < List.length selected)%nat ->
        nth_error selected i
        = nth_error (sorted (glob three_snapshots (os_path_join "log" "*.out")))
            (List.length (sorted (glob three_snapshots (os_path_join "log" "*.out")))
             - 1 - i * Z.to_nat (- -2))) /\
    (-2 = -1 ->
     selected = rev (sorted (glob three_snapshots (os_path_join "log" "*.out")))).
Proof. apply (negative_stride_samples_backwards three_snapshots "log" (-2)). lia. Defined.

(** Thirty-one files and twenty-three snapshots. *)
Lemma increasing_indices_witness :
  exists indices : list Z,
    linspace_int 0 (31 - 1) 23 = Ok indices /\
    forall i j a b : Z,
      0 <= i -> i < j -> j < 23 ->
      nth_error indices (Z.to_nat i) = Some a ->
      nth_error indices (Z.to_nat j) = Some b ->
      0 <= a /\ a < b /\ b <= 31 - 1.
Proof. apply (even_sampling_indices_increase 31 23); lia. Defined.

Lemma generation_directory_witness :
  basename (os_path_join "log/success4_best" "gen0032.out") = "gen0032.out" /\
  generation (os_path_join "log/success4_best" "gen0032.out")
  = replace "gen0032.out" ".out" "".
Proof.
  apply (generation_ignores_the_directory "log/success4_best" "gen0032.out").
  reflexivity.
Defined.

(** The weights of the example matrix, under two different last columns. *)
Lemma weight_matrix_witness :
  (weight_matrix (with_last_column [[0; 1; 0]; [1 # 2; 0; 0]; [0; 0; 3]] [1; 1; 0])%Q
   = Ok [[0; 1; 0]; [1 # 2; 0; 0]; [0; 0; 3]]%Q /\
   weight_matrix [[0; 1; 0; 1]%Q] = Raise IndexError) /\
  (weight_matrix (with_last_column [[0; 1; 0]; [1 # 2; 0; 0]; [0; 0; 3]] [7; 8; 9])%Q
   = Ok [[0; 1; 0]; [1 # 2; 0; 0]; [0; 0; 3]]%Q /\
   weight_matrix [[0; 1; 0; 1]%Q] = Raise IndexError).
Proof.
  split.
  - apply (weight_matrix_drops_the_last_column
             [[0; 1; 0]; [1 # 2; 0; 0]; [0; 0; 3]]%Q [1; 1; 0]%Q [0; 1; 0; 1]%Q);
      [cbn; lia | reflexivity | discriminate].
  - apply (weight_matrix_drops_the_last_column
             [[0; 1; 0]; [1 # 2; 0; 0]; [0; 0; 3]]%Q [7; 8; 9]%Q [0; 1; 0; 1]%Q);
      [cbn; lia | reflexivity | discriminate].
Defined.
